(** * Analytics API over a cached snapshot of person records

    Shallow embedding of [src/lib/main.py]: the process-wide [cache]
    dictionary, the ingestion handler [POST /users], the four query
    handlers and the self-check [GET /evaluation], with the properties
    the specification states about them.

    Modelling conventions.
    - Python [int] is [Z]; [len] is [Z.of_nat (length _)].
    - The module-level dictionary [cache] is a [gmap string _]; every
      handler receives it and [POST /users] returns the updated one.
    - [Counter] and [defaultdict] iterate in insertion order, so they are
      association lists whose new keys are appended at the end.
    - A handler's outcome is a [Response]: the returned body, a raised
      [HTTPException], or the framework's rejection of the request when
      a declared parameter constraint fails, which happens before the
      handler body runs.
    - [processing_time_ms] and [time_ms] are wall-clock measurements and
      are left out of the bodies.
    - The source calls all five route handlers [read_root]; here each is
      named after its route.  [Person], [Team] and [Project] all have a
      field [nome]; the latter two are [t_nome] and [p_nome]. *)

From Stdlib Require Import ZArith QArith Lia Lqa Permutation Sorted DecimalString DecimalNat Floats.
From stdpp Require Import gmap strings list fin_maps sorting.

Local Open Scope string_scope.
Local Open Scope Z_scope.

(** ** Data model (the pydantic classes, lines 16-37) *)

Record Project := { p_nome : string; concluido : bool }.

Record Team := { t_nome : string; lider : bool; projetos : list Project }.

Record date := { year : Z; month : Z; day : Z }.

Record LogEntry := { data : date; acao : string }.

Record Person := {
  id : N;
  nome : string;
  idade : Z;
  score : Z;
  ativo : bool;
  pais : string;
  equipe : Team;
  logs : list LogEntry
}.

#[global] Instance date_eq_dec : EqDecision date.
Proof. solve_decision. Defined.

(** ** Responses *)

Definition HTTP_200_OK : Z := 200.
Definition HTTP_404_NOT_FOUND : Z := 404.
Definition HTTP_400_BAD_REQUEST : Z := 400.
(** FastAPI answers a request whose body or query parameter violates the
    declared schema ([List[Person]], [Query(None, ge=0)]) with this code;
    the application installs no handler of its own for it. *)
Definition HTTP_422_UNPROCESSABLE_ENTITY : Z := 422.

Inductive Response (B : Type) : Type :=
| Ok (body : B)
| HTTPException (code : Z) (detail : string)
| RequestValidationError.
Arguments Ok {B} body.
Arguments HTTPException {B} code detail.
Arguments RequestValidationError {B}.

Definition status_code {B} (r : Response B) : Z :=
  match r with
  | Ok _ => HTTP_200_OK
  | HTTPException c _ => c
  | RequestValidationError => HTTP_422_UNPROCESSABLE_ENTITY
  end.

(** The body shared by the four query handlers:
    [{"processing_time_ms": ..., "total": ..., "data": ...}]. *)
Record Body (A : Type) := { total : Z; body_data : list A }.
Arguments total {A} _.
Arguments body_data {A} _.

Definition len {A} (l : list A) : Z := Z.of_nat (length l).

(** ** Insertion-ordered dictionaries *)

Module Dict.
Section Dict.
Context {K V : Type} `{EqDecision K}.

Definition t := list (K * V).

Fixpoint get (k : K) (d : t) : option V :=
  match d with
  | [] => None
  | (k', v) :: d' => if decide (k = k') then Some v else get k d'
  end.

(** [d[k] = f(d[k])] on a [defaultdict] whose factory yields [dflt]:
    an existing key keeps its position, a new key goes last. *)
Fixpoint update (k : K) (dflt : V) (f : V -> V) (d : t) : t :=
  match d with
  | [] => [(k, f dflt)]
  | (k', v) :: d' =>
      if decide (k = k') then (k', f v) :: d'
      else (k', v) :: update k dflt f d'
  end.

(** [d[k] = v] on a plain [dict]. *)
Definition set (k : K) (v : V) (d : t) : t := update k v (fun _ => v) d.

Definition keys (d : t) : list K := map fst d.
End Dict.
Arguments t : clear implicits.
End Dict.

(** [list.index]: the position of the first occurrence. *)
Fixpoint index {A} `{EqDecision A} (x : A) (l : list A) : option nat :=
  match l with
  | [] => None
  | y :: l' => if decide (x = y) then Some O else S <$> index x l'
  end.

(** ** The cache and ingestion (lines 13, 39-42) *)

Definition people_key : string := "people".

Definition cache_init : gmap string (list Person) := ∅.

(** [f"{n} pessoas armazenadas em cache"] *)
Definition str_of_nat (n : nat) : string :=
  DecimalString.NilZero.string_of_uint (Nat.to_uint n).

Definition stored_message (n : nat) : string :=
  str_of_nat n ++ " pessoas armazenadas em cache".

Section Ingestion.
(** The request body as it arrives, and pydantic's validation of one
    element against [Person]; [None] is a validation error. *)
Variable Raw : Type.
Variable validate : Raw -> option Person.

(** Validation of the [List[Person]] body: every element must pass. *)
Fixpoint validate_all (payload : list Raw) : option (list Person) :=
  match payload with
  | [] => Some []
  | r :: rs =>
      match validate r, validate_all rs with
      | Some p, Some ps => Some (p :: ps)
      | _, _ => None
      end
  end.

Definition post_users (cache : gmap string (list Person)) (payload : list Raw)
  : gmap string (list Person) * Response string :=
  match validate_all payload with
  | None => (cache, RequestValidationError)
  | Some people =>
      (<[people_key := people]> cache, Ok (stored_message (length people)))
  end.
End Ingestion.

(** ** GET /users (lines 44-63) *)

Definition is_superuser (person : Person) : bool :=
  (900 <=? score person) && ativo person.

Definition get_users (cache : gmap string (list Person)) : Response (Body Person) :=
  match cache !! people_key with
  | None => HTTPException HTTP_404_NOT_FOUND "Nenhuma pessoa em cache"
  | Some people =>
      let superusers := List.filter is_superuser people in
      Ok {| total := len superusers; body_data := superusers |}
  end.

(** ** GET /top-countries (lines 65-88) *)

(** [Counter(iterable)]: one increment per element, left to right. *)
Definition Counter {K} `{EqDecision K} (l : list K) : Dict.t K Z :=
  fold_left (fun d k => Dict.update k 0 (fun c => c + 1) d) l [].

(** [sorted(items, key=itemgetter(1), reverse=True)]: stable, so items
    with equal counts stay in their original order. *)
Fixpoint insert_desc {K} (x : K * Z) (l : list (K * Z)) : list (K * Z) :=
  match l with
  | [] => [x]
  | y :: l' => if x.2 >=? y.2 then x :: y :: l' else y :: insert_desc x l'
  end.

Fixpoint sorted_desc {K} (l : list (K * Z)) : list (K * Z) :=
  match l with
  | [] => []
  | x :: l' => insert_desc x (sorted_desc l')
  end.

(** [Counter.most_common(n)] is [heapq.nlargest(n, items, key=count)],
    which equals [sorted(items, key=count, reverse=True)[:n]]. *)
Definition most_common {K} (n : nat) (d : Dict.t K Z) : list (K * Z) :=
  take n (sorted_desc d).

Definition superusuarios (people : list Person) : list string :=
  map pais (List.filter (fun usuario => 800 <? score usuario) people).

Definition top_countries (cache : gmap string (list Person))
  : Response (Body (string * Z)) :=
  match cache !! people_key with
  | None => HTTPException HTTP_404_NOT_FOUND "Nenhuma pessoa em cache"
  | Some people =>
      let pais_contagem := Counter (superusuarios people) in
      let top_5_paises := most_common 5 pais_contagem in
      Ok {| total := len top_5_paises; body_data := top_5_paises |}
  end.

(** ** Binary64 arithmetic used by GET /team-insights

    The percentage is computed on Python floats.  A float of the range
    that occurs here (finite, non-negative) is a dyadic number
    [mant * 2^expo]; every operation is the exact result rounded to the
    nearest binary64 value, ties to even, as IEEE 754 and CPython
    specify.  Magnitudes of 2^1024 and above, which would overflow, do
    not occur: all values computed by the handler are at most 100. *)

Module Float.
Record float := { mant : Z; expo : Z }.

Definition prec : Z := 53.
Definition emin : Z := -1074.

(** [2^e] as the fraction [up e / dn e]. *)
Definition up (e : Z) : Z := 2 ^ Z.max e 0.
Definition dn (e : Z) : Z := 2 ^ Z.max (- e) 0.

Definition value (x : float) : Q :=
  (mant x * up (expo x)) # Z.to_pos (dn (expo x)).

(** The integer nearest to [n / d], ties to the even one. *)
Definition round_half_even (n d : Z) : Z :=
  let q := n / d in
  let r := n mod d in
  if 2 * r <? d then q
  else if d <? 2 * r then q + 1
  else if Z.even q then q else q + 1.

(** [floor (log2 (n / d))] for [0 < n], [0 < d]. *)
Definition ilog2 (n d : Z) : Z :=
  let k := Z.log2 n - Z.log2 d in
  if d * up k <=? n * dn k then k else k - 1.

(** [n / d] rounded to binary64 ([0 <= n], [0 < d]); results below
    [2^-1022] are subnormal and keep the exponent [emin]. *)
Definition RN (n d : Z) : float :=
  if n =? 0 then {| mant := 0; expo := emin |}
  else
    let e := Z.max emin (ilog2 n d - (prec - 1)) in
    {| mant := round_half_even (n * dn e) (d * up e); expo := e |}.

(** [a / b] on Python integers: the correctly rounded quotient. *)
Definition int_truediv (a b : Z) : float := RN a b.

(** [x * k] for a float [x] and a small integer [k], itself exact as
    a float. *)
Definition mul_int (x : float) (k : Z) : float :=
  RN (mant x * up (expo x) * k) (dn (expo x)).

(** [round(x, 2)]: the decimal with two places nearest to the exact
    value of [x], ties to even, converted back to a float. *)
Definition round2 (x : float) : float :=
  RN (round_half_even (mant x * up (expo x) * 100) (dn (expo x))) 100.
End Float.

(** The value of [round(porcentagem_ativos, 2)]: an [int] when the
    conditional expression took its [else 0] branch, a [float] otherwise. *)
Inductive PyNumber :=
| PyInt (n : Z)
| PyFloat (x : Float.float).

Definition number_value (v : PyNumber) : Q :=
  match v with
  | PyInt n => inject_Z n
  | PyFloat x => Float.value x
  end.

(** ** GET /team-insights (lines 90-133) *)

Record TeamInfo := {
  total_membros : Z;
  lideres : Z;
  projetos_concluidos : Z;
  ativos : Z
}.

(** The [defaultdict] factory. *)
Definition team_info_default : TeamInfo :=
  {| total_membros := 0; lideres := 0; projetos_concluidos := 0; ativos := 0 |}.

(** [sum(1 for p in equipe["projetos"] if p["concluido"])] *)
Definition concluidos (ps : list Project) : Z :=
  fold_left (fun acc p => if concluido p then acc + 1 else acc) ps 0.

(** One iteration of the loop over [cache["people"]]. *)
Definition team_step (team_data : Dict.t string TeamInfo) (usuario : Person)
  : Dict.t string TeamInfo :=
  let equipe := equipe usuario in
  Dict.update (t_nome equipe) team_info_default
    (fun team_info =>
       {| total_membros := total_membros team_info + 1;
          lideres := if lider equipe then lideres team_info + 1
                     else lideres team_info;
          projetos_concluidos :=
            projetos_concluidos team_info + concluidos (projetos equipe);
          ativos := if ativo usuario then ativos team_info + 1
                    else ativos team_info |})
    team_data.

Definition team_data_of (people : list Person) : Dict.t string TeamInfo :=
  fold_left team_step people [].

Record Insight := {
  team_name : string;
  ins_total_membros : Z;
  ins_lideres : Z;
  ins_projetos_concluidos : Z;
  percentagem_ativos : PyNumber
}.

Definition porcentagem (info : TeamInfo) : PyNumber :=
  if 0 <? total_membros info
  then PyFloat (Float.round2
                  (Float.mul_int (Float.int_truediv (ativos info) (total_membros info)) 100))
  else PyInt 0.

Definition insight_of (item : string * TeamInfo) : Insight :=
  {| team_name := item.1;
     ins_total_membros := total_membros item.2;
     ins_lideres := lideres item.2;
     ins_projetos_concluidos := projetos_concluidos item.2;
     percentagem_ativos := porcentagem item.2 |}.

Definition team_insights (cache : gmap string (list Person))
  : Response (Body Insight) :=
  match cache !! people_key with
  | None => HTTPException HTTP_404_NOT_FOUND "Nenhuma pessoa em cache"
  | Some people =>
      let insights := map insight_of (team_data_of people) in
      Ok {| total := len insights; body_data := insights |}
  end.

(** ** GET /active-users-per-day (lines 135-162) *)

(** The inner loop over [usuario["logs"]]. *)
Definition count_logs (login_count_by_day : Dict.t date Z) (logs : list LogEntry)
  : Dict.t date Z :=
  fold_left
    (fun d log =>
       if String.eqb (acao log) "login"
       then Dict.update (data log) 0 (fun c => c + 1) d
       else d)
    logs login_count_by_day.

Definition login_count_by_day (people : list Person) : Dict.t date Z :=
  fold_left (fun d usuario => count_logs d (logs usuario)) people [].

(** [Query(None, ge=0)]: the declared constraint on [min]. *)
Definition min_valid (min : option Z) : bool :=
  match min with
  | None => true
  | Some m => 0 <=? m
  end.

(** The handler body; it runs only for a request that passed
    validation. *)
Definition active_users_per_day_body (cache : gmap string (list Person))
    (min : option Z) : Response (Body (date * Z)) :=
  match cache !! people_key with
  | None => HTTPException HTTP_404_NOT_FOUND "Nenhuma pessoa em cache"
  | Some people =>
      let counts := login_count_by_day people in
      let counts :=
        match min with
        | Some m => List.filter (fun item => m <=? item.2) counts
        | None => counts
        end in
      Ok {| total := len counts; body_data := counts |}
  end.

Definition active_users_per_day (cache : gmap string (list Person))
    (min : option Z) : Response (Body (date * Z)) :=
  if min_valid min then active_users_per_day_body cache min
  else RequestValidationError.

(** ** The self-check (lines 164-226) *)

(** What [client.get(url)] does: it returns a response, whose body may
    or may not parse as JSON, or it raises. *)
Inductive Outcome :=
| Responded (status : Z) (json_valid : bool)
| Raised (err : string).

Record Result := {
  res_status_code : option Z;
  status_ok : bool;
  valid_response : bool;
  error : option string
}.

#[global] Instance Result_eq_dec : EqDecision Result.
Proof. solve_decision. Defined.

Definition slash : Ascii.ascii := Ascii.ascii_of_nat 47.

(** [url.split("/")[-1]]: the text after the last slash. *)
Fixpoint last_segment_from (acc s : string) : string :=
  match s with
  | EmptyString => acc
  | String c s' =>
      if Ascii.eqb c slash then last_segment_from "" s'
      else last_segment_from (acc ++ String c "") s'
  end.

Definition last_segment (s : string) : string := last_segment_from "" s.

Definition endpoints : list string :=
  ["/users"; "/top-countries"; "/team-insights"; "/active-users-per-day"].

Definition base_url : string := "http://127.0.0.1:8000".

Section SelfCheck.
Variable client_get : string -> Outcome.

Definition test_endpoint (url : string) : Result :=
  match client_get url with
  | Responded status json_valid =>
      {| res_status_code := Some status;
         status_ok := status =? 200;
         valid_response := json_valid;
         error := None |}
  | Raised e =>
      {| res_status_code := None;
         status_ok := false;
         valid_response := false;
         error := Some e |}
  end.

(** One iteration of the loop over [endpoints], on the pair
    [(codeStatus, results)]. *)
Definition evaluation_step (st : option Z * Dict.t string Result)
    (endpoint : string) : option Z * Dict.t string Result :=
  let url := base_url ++ endpoint in
  let result := test_endpoint url in
  let codeStatus :=
    if decide (res_status_code result = Some 200) then st.1
    else res_status_code result in
  (codeStatus, Dict.set ("/" ++ last_segment url) result st.2).

Definition evaluation_over (eps : list string) : option Z * Dict.t string Result :=
  fold_left evaluation_step eps (Some 200, []).

(** The pair ([response.status], [response.body.tested_endpoints]). *)
Definition evaluation : option Z * Dict.t string Result :=
  evaluation_over endpoints.

(** The status code each endpoint's check recorded, in list order. *)
Definition recorded (eps : list string) : list (option Z) :=
  map (fun endpoint => res_status_code (test_endpoint (base_url ++ endpoint))) eps.
End SelfCheck.

(** [TestClient(app).get(url)]: the request is routed by path to the
    handler, which reads [cache]; the self-check sends no query string,
    so [min] is absent.  Every body the four handlers return, and the
    body of their 404 exception, serialises to JSON.  URLs outside the
    four routes the self-check requests (the documentation pages, a URL
    with a query string, [/evaluation] itself) are not modelled: [other]
    stands for what the application answers there. *)
Definition url_path (url : string) : string :=
  if String.prefix base_url url
  then String.substring (String.length base_url)
         (String.length url - String.length base_url)%nat url
  else url.

Definition app_get (cache : gmap string (list Person)) (other : string -> Outcome)
    (url : string) : Outcome :=
  let path := url_path url in
  if String.eqb path "/users" then Responded (status_code (get_users cache)) true
  else if String.eqb path "/top-countries"
    then Responded (status_code (top_countries cache)) true
  else if String.eqb path "/team-insights"
    then Responded (status_code (team_insights cache)) true
  else if String.eqb path "/active-users-per-day"
    then Responded (status_code (active_users_per_day cache None)) true
  else other url.


(** The claim "first endpoint that did not return success", as the
    specification words it. *)
Definition first_failure (statuses : list (option Z)) : option Z :=
  match List.find (fun s => negb (bool_decide (s = Some 200))) statuses with
  | Some s => s
  | None => Some 200
  end.

(** What the loop computes: the last one. *)
Definition last_failure (statuses : list (option Z)) : option Z :=
  first_failure (rev statuses).

(** ** Vocabulary of the statements and sample data *)

Definition keep_or_replace (codeStatus s : option Z) : option Z :=
  if decide (s = Some 200) then codeStatus else s.

(** A client whose first request is answered "not found" and whose third
    request raises. *)
Definition uneven_client (url : string) : Outcome :=
  if String.eqb url "http://127.0.0.1:8000/users"
  then Responded 404 true
  else if String.eqb url "http://127.0.0.1:8000/team-insights"
  then Raised "connection refused"
  else Responded 200 true.

Definition not_found {B} : Response B :=
  HTTPException HTTP_404_NOT_FOUND "Nenhuma pessoa em cache".

(** Sample data: request elements that are either well formed or not,
    and a few people. *)
Inductive RawExample :=
| WellFormed (p : Person)
| Malformed (what : string).

Definition validate_example (r : RawExample) : option Person :=
  match r with
  | WellFormed p => Some p
  | Malformed _ => None
  end.

Definition d1 : date := {| year := 2025; month := 3; day := 25 |}.
Definition d2 : date := {| year := 2025; month := 3; day := 26 |}.

Definition backend : Team :=
  {| t_nome := "Backend"; lider := true;
     projetos := [ {| p_nome := "API"; concluido := true |};
                   {| p_nome := "Cache"; concluido := false |} ] |}.

Definition frontend : Team :=
  {| t_nome := "Frontend"; lider := false;
     projetos := [ {| p_nome := "Site"; concluido := true |} ] |}.

Definition ana : Person :=
  {| id := 1%N; nome := "Ana"; idade := 31; score := 950; ativo := true;
     pais := "BR"; equipe := backend;
     logs := [ {| data := d1; acao := "login" |};
               {| data := d1; acao := "logout" |};
               {| data := d2; acao := "login" |} ] |}.

Definition bob : Person :=
  {| id := 2%N; nome := "Bob"; idade := 44; score := 800; ativo := true;
     pais := "US"; equipe := frontend;
     logs := [ {| data := d2; acao := "login" |} ] |}.

Definition caio : Person :=
  {| id := 3%N; nome := "Caio"; idade := 27; score := 120; ativo := false;
     pais := "BR"; equipe := backend;
     logs := [ {| data := d2; acao := "login" |} ] |}.

Definition dina : Person :=
  {| id := 4%N; nome := "Dina"; idade := 52; score := 990; ativo := false;
     pais := "US"; equipe := backend; logs := [] |}.

Definition sample_people : list Person := [ana; bob; caio; dina].

Definition sample_cache : gmap string (list Person) :=
  <[people_key := sample_people]> cache_init.

(** How often [k] occurs in [l]. *)
Fixpoint occurrences {K} `{EqDecision K} (k : K) (l : list K) : Z :=
  match l with
  | [] => 0
  | y :: l' => (if decide (k = y) then 1 else 0) + occurrences k l'
  end.

(** [k1] is first met in [src] before [k2] is. *)
Definition seen_before {K} `{EqDecision K} (src : list K) (k1 k2 : K) : Prop :=
  exists a b, index k1 src = Some a /\ index k2 src = Some b /\ (a < b)%nat.

Definition sum_counts {K} (d : list (K * Z)) : Z :=
  fold_right Z.add 0 (map snd d).

Definition is_login (log : LogEntry) : bool := String.eqb (acao log) "login".

(** The dates of the log entries whose action is ["login"], over all
    records, in scanning order. *)
Definition login_dates (people : list Person) : list date :=
  concat (map (fun usuario => map data (List.filter is_login (logs usuario))) people).

(** Descending by count; among equal counts, [Q] decides. *)
Definition ranked {K} (Q : relation (K * Z)) : relation (K * Z) :=
  fun x y => y.2 < x.2 \/ (x.2 = y.2 /\ Q x y).

(** The number of records of country [c] whose score exceeds 800. *)
Definition over_800_in (c : string) (people : list Person) : Z :=
  len (List.filter (fun usuario => (800 <? score usuario) && bool_decide (pais usuario = c))
         people).

Definition from (p : string) (s : Z) : Person :=
  {| id := 0%N; nome := "x"; idade := 30; score := s; ativo := true;
     pais := p; equipe := frontend; logs := [] |}.

(** The fraction [n / d] for [0 < d]. *)
Definition frac (n d : Z) : Q := n # Z.to_pos d.

(** How far [round(x, 2)] of the float percentage may be from the exact
    one: half a hundredth, plus the rounding of the float operations. *)
Definition percentage_tolerance : Q := (1 # 200) + (1 # 2 ^ 45).

(** Comparison of the dyadic model with the binary64 floats of the
    system: the value of a primitive float, and the three operations of
    the handler on a pair of counts. *)
Definition spec_value (s : spec_float) : option Q :=
  match s with
  | S754_zero _ => Some 0%Q
  | S754_finite false m e => Some ((Z.pos m * Float.up e) # Z.to_pos (Float.dn e))
  | _ => None
  end.

Definition prim (n : Z) : PrimFloat.float := PrimFloat.of_uint63 (Uint63.of_Z n).

Definition agrees (x : Float.float) (y : PrimFloat.float) : bool :=
  match spec_value (Prim2SF y) with
  | Some q => Qeq_bool (Float.value x) q
  | None => false
  end.

Definition count_pairs (n : nat) : list (Z * Z) :=
  flat_map (fun t => map (fun a => (Z.of_nat a, Z.of_nat (S t))) (seq 0 (S (S t))))
    (seq 0 n).

Definition agrees_on (p : Z * Z) : bool :=
  let q := Float.int_truediv p.1 p.2 in
  let x := Float.mul_int q 100 in
  let h := Float.round_half_even
             (Float.mant x * Float.up (Float.expo x) * 100) (Float.dn (Float.expo x)) in
  agrees q (PrimFloat.div (prim p.1) (prim p.2))
  && agrees x (PrimFloat.mul (PrimFloat.div (prim p.1) (prim p.2)) (prim 100))
  && agrees (Float.round2 x) (PrimFloat.div (prim h) (prim 100)).

(** The whole number of hundredths that [round(x, 2)] settles on for
    [x = a / t * 100]: [round2 x] is the float nearest to it over 100. *)
Definition hundredths (a t : Z) : Z :=
  let x := Float.mul_int (Float.int_truediv a t) 100 in
  Float.round_half_even (Float.mant x * Float.up (Float.expo x) * 100)
    (Float.dn (Float.expo x)).

(** "(active / total) x 100 rounded to 2 decimals" as the claim words
    it, on the exact quotient: in hundredths, with a tie going to the
    even hundredth, or going up. *)
Definition exact_hundredths_half_even (a t : Z) : Z :=
  Float.round_half_even (10000 * a) t.

Definition exact_hundredths_half_up (a t : Z) : Z :=
  (2 * (10000 * a) + t) / (2 * t).

(** A snapshot of one team with [active] active and [inactive]
    inactive members. *)
Definition member (act : bool) : Person :=
  {| id := 0%N; nome := "m"; idade := 30; score := 500; ativo := act;
     pais := "BR"; equipe := frontend; logs := [] |}.

Definition squad (active inactive : nat) : list Person :=
  (repeat (member true) active ++ repeat (member false) inactive)%list.

Definition sumZ (l : list Z) : Z := fold_right Z.add 0 l.

Definition team_of (usuario : Person) : string := t_nome (equipe usuario).

(** The records whose team is named [t], in snapshot order. *)
Definition members (t : string) (people : list Person) : list Person :=
  List.filter (fun usuario => bool_decide (team_of usuario = t)) people.

(** The four counters of the group named [t], stated on its members. *)
Definition group_info (t : string) (people : list Person) : TeamInfo :=
  let ms := members t people in
  {| total_membros := len ms;
     lideres := len (List.filter (fun usuario => lider (equipe usuario)) ms);
     projetos_concluidos :=
       sumZ (map (fun usuario =>
                    len (List.filter concluido (projetos (equipe usuario)))) ms);
     ativos := len (List.filter ativo ms) |}.


(** ** Vocabulary of the further properties *)

(** Whether a slash occurs in [s]. *)
Fixpoint has_slash (s : string) : bool :=
  match s with
  | EmptyString => false
  | String c s' => Ascii.eqb c slash || has_slash s'
  end.

(** An endpoint path of one segment: a slash and a name without one. *)
Definition one_segment (endpoint : string) : Prop :=
  exists name, endpoint = String slash name /\ has_slash name = false.

(** The text before the first space. *)
Fixpoint until_space (s : string) : string :=
  match s with
  | EmptyString => EmptyString
  | String c s' =>
      if Ascii.eqb c (Ascii.ascii_of_nat 32) then EmptyString
      else String c (until_space s')
  end.

(** Reading the count back from the message of POST /users. *)
Definition read_count (message : string) : option nat :=
  option_map Nat.of_uint (NilZero.uint_of_string (until_space message)).

(** * Properties *)

(** ** The self-check's overall status *)

Lemma evaluation_over_fold client eps st :
  (fold_left (evaluation_step client) eps st).1
  = fold_left keep_or_replace (recorded client eps) st.1.
Proof.
  revert st. induction eps as [|e eps IH]; intros st; simpl; [reflexivity|].
  rewrite IH. reflexivity.
Qed.

Lemma fold_keep_all_ok statuses init :
  Forall (fun s => s = Some 200) statuses ->
  fold_left keep_or_replace statuses init = init.
Proof.
  intros H. revert init. induction H as [|s l Hs _ IH]; intros init; simpl.
  - reflexivity.
  - rewrite IH. unfold keep_or_replace. rewrite decide_True; auto.
Qed.

Lemma fold_keep_last_failure before s after init :
  s <> Some 200 ->
  Forall (fun s' => s' = Some 200) after ->
  fold_left keep_or_replace (before ++ s :: after)%list init = s.
Proof.
  intros Hs Hafter. rewrite fold_left_app. simpl.
  rewrite fold_keep_all_ok by assumption.
  unfold keep_or_replace. rewrite decide_False; auto.
Qed.

Lemma last_failure_fold statuses :
  fold_left keep_or_replace statuses (Some 200) = last_failure statuses.
Proof.
  unfold last_failure, first_failure.
  induction statuses as [|s l IH] using rev_ind; [reflexivity|].
  rewrite fold_left_app, rev_app_distr. simpl.
  unfold keep_or_replace at 1.
  destruct (decide (s = Some 200)) as [->|Hne].
  - rewrite bool_decide_eq_true_2 by reflexivity. simpl. exact IH.
  - rewrite bool_decide_eq_false_2 by assumption. reflexivity.
Qed.

Lemma evaluation_last_failure client :
  (evaluation client).1 = last_failure (recorded client endpoints).
Proof.
  unfold evaluation, evaluation_over. rewrite evaluation_over_fold.
  apply last_failure_fold.
Qed.

(** The loop alone does not keep the first failure: for a client that
    is not the application's, with a "not found" from [/users] followed
    by a raised request to [/team-insights], the reported status is not
    the 404 of the first failing endpoint. *)
Lemma evaluation_not_first_failure :
  recorded uneven_client endpoints = [Some 404; Some 200; None; Some 200]
  /\ first_failure (recorded uneven_client endpoints) = Some 404
  /\ (evaluation uneven_client).1 = None
  /\ (evaluation uneven_client).1
     <> first_failure (recorded uneven_client endpoints).
Proof. repeat split; try reflexivity. vm_compute. discriminate. Qed.

(** For an arbitrary client, the loop reports 200 when every endpoint of
    the fixed list recorded 200, and otherwise what the last endpoint of
    the list that did not record 200 recorded (no status at all when its
    request raised). *)
Theorem evaluation_status_last_failure client :
  (Forall (fun s => s = Some 200) (recorded client endpoints) ->
   (evaluation client).1 = Some 200)
  /\ (forall before e after,
        endpoints = (before ++ e :: after)%list ->
        res_status_code (test_endpoint client (base_url ++ e)) <> Some 200 ->
        Forall (fun s => s = Some 200) (recorded client after) ->
        (evaluation client).1
        = res_status_code (test_endpoint client (base_url ++ e)))
  /\ (evaluation client).1 = last_failure (recorded client endpoints).
Proof.
  unfold evaluation, evaluation_over. rewrite evaluation_over_fold. simpl fst.
  split; [|split].
  - intros H. apply fold_keep_all_ok. exact H.
  - intros before e after Heps Hne Hafter. rewrite Heps.
    unfold recorded at 1. rewrite map_app. simpl.
    apply fold_keep_last_failure; assumption.
  - apply last_failure_fold.
Qed.

Lemma evaluation_status_last_failure_witness :
  (evaluation uneven_client).1 = None.
Proof.
  apply (proj1 (proj2 (evaluation_status_last_failure uneven_client))
           ["/users"; "/top-countries"] "/team-insights" ["/active-users-per-day"]).
  - reflexivity.
  - vm_compute. discriminate.
  - vm_compute. repeat constructor.
Defined.

(** With the application itself behind the client and the cache
    unchanged during the run, the four endpoints record the same status,
    so first and last failure coincide. *)
Lemma recorded_on_fixed_cache cache other :
  recorded (app_get cache other) endpoints
  = match cache !! people_key with
    | Some _ => [Some 200; Some 200; Some 200; Some 200]
    | None => [Some 404; Some 404; Some 404; Some 404]
    end.
Proof.
  unfold recorded, endpoints, test_endpoint, app_get. simpl map.
  unfold get_users, top_countries, team_insights, active_users_per_day,
    active_users_per_day_body. simpl min_valid. cbv iota.
  destruct (cache !! people_key); reflexivity.
Qed.








(** ** Parameter validation and the missing snapshot *)

Lemma body_never_validation_error cache min :
  active_users_per_day_body cache min <> RequestValidationError.
Proof.
  unfold active_users_per_day_body.
  destruct (cache !! people_key); discriminate.
Qed.

(** C2, as stated, fails: [min=-1] is answered with the validation
    error of the framework, whose status is 422 and not 400, whether or
    not a snapshot exists. *)
Lemma negative_min_not_bad_request :
  status_code (active_users_per_day cache_init (Some (-1)))
  <> HTTP_400_BAD_REQUEST
  /\ status_code (active_users_per_day (<[people_key := []]> cache_init) (Some (-1)))
     <> HTTP_400_BAD_REQUEST.
Proof. split; vm_compute; discriminate. Qed.

(** C2 (amended): a negative [min] is rejected by parameter validation
    with the validation-error response (status 422), whatever the cache
    holds and without running the handler; a non-negative or absent
    [min] passes validation and the handler's own response is returned. *)
Theorem min_validation cache (m : Z) :
  (m < 0 ->
   active_users_per_day cache (Some m) = RequestValidationError
   /\ status_code (active_users_per_day cache (Some m))
      = HTTP_422_UNPROCESSABLE_ENTITY)
  /\ (0 <= m ->
      active_users_per_day cache (Some m)
      = active_users_per_day_body cache (Some m)
      /\ active_users_per_day cache (Some m) <> RequestValidationError)
  /\ active_users_per_day cache None = active_users_per_day_body cache None.
Proof.
  unfold active_users_per_day. simpl min_valid. split; [|split].
  - intros Hm. destruct (Z.leb_spec 0 m); [lia|]. split; reflexivity.
  - intros Hm. destruct (Z.leb_spec 0 m); [|lia].
    split; [reflexivity|apply body_never_validation_error].
  - reflexivity.
Qed.

Lemma min_validation_witness :
  active_users_per_day cache_init (Some (-1)) = RequestValidationError
  /\ active_users_per_day cache_init (Some 3)
     = active_users_per_day_body cache_init (Some 3).
Proof.
  split.
  - apply (proj1 (min_validation cache_init (-1))). lia.
  - apply (proj1 (proj2 (min_validation cache_init 3))). lia.
Defined.

(** C9: while the cache has no ["people"] entry, as in the initial cache,
    each of the four query handlers raises the 404 exception and returns
    no body; for [/active-users-per-day] this is the answer to every
    request that passes parameter validation. *)
Theorem queries_without_snapshot (cache : gmap string (list Person)) :
  cache !! people_key = None ->
  get_users cache = not_found
  /\ top_countries cache = not_found
  /\ team_insights cache = not_found
  /\ (forall min, min_valid min = true ->
        active_users_per_day cache min = not_found).
Proof.
  intros Hnone.
  unfold get_users, top_countries, team_insights, active_users_per_day,
    active_users_per_day_body.
  rewrite Hnone. repeat split. intros min ->. reflexivity.
Qed.

Lemma queries_without_snapshot_witness :
  get_users cache_init = not_found
  /\ top_countries cache_init = not_found
  /\ team_insights cache_init = not_found
  /\ (forall min, min_valid min = true ->
        active_users_per_day cache_init min = not_found).
Proof. apply (queries_without_snapshot cache_init). reflexivity. Defined.

(** ** Ingestion *)

Lemma string_app_cons c (a b : string) : String c a ++ b = String c (a ++ b).
Proof. reflexivity. Qed.

Lemma until_space_digits d rest :
  until_space (NilEmpty.string_of_uint d ++ String (Ascii.ascii_of_nat 32) rest)
  = NilEmpty.string_of_uint d.
Proof.
  induction d; cbn [NilEmpty.string_of_uint]; [reflexivity|..];
    rewrite string_app_cons; cbn [until_space]; rewrite IHd; reflexivity.
Qed.

Lemma until_space_str_of_nat n rest :
  until_space (str_of_nat n ++ String (Ascii.ascii_of_nat 32) rest) = str_of_nat n.
Proof.
  unfold str_of_nat, NilZero.string_of_uint.
  destruct (Nat.to_uint n) eqn:Hn; try apply until_space_digits.
  reflexivity.
Qed.

(** The decimal number before the first space of the message reads
    back as the count. *)
Lemma read_count_stored_message k : read_count (stored_message k) = Some k.
Proof.
  unfold read_count, stored_message.
  change " pessoas armazenadas em cache"
    with (String (Ascii.ascii_of_nat 32) "pessoas armazenadas em cache").
  rewrite until_space_str_of_nat. unfold str_of_nat.
  destruct (NilZero.usu_gen (Nat.to_uint k)) as [H|H]; rewrite H; cbn [option_map].
  - rewrite DecimalNat.Unsigned.of_to. reflexivity.
  - f_equal. destruct k; [reflexivity|].
    pose proof (NilZero.usu (Nat.to_uint (S k))) as Hu.
    rewrite H in Hu.
    assert (Hnil : Nat.to_uint (S k) <> Decimal.Nil).
    { intros Hn. apply (f_equal Nat.of_uint) in Hn.
      rewrite DecimalNat.Unsigned.of_to in Hn. discriminate. }
    specialize (Hu Hnil). inversion Hu as [Hz].
    apply (f_equal Nat.of_uint) in Hz.
    rewrite DecimalNat.Unsigned.of_to in Hz. exact Hz.
Qed.

Section IngestionFacts.
Variable Raw : Type.
Variable validate : Raw -> option Person.

Lemma validate_all_none payload :
  validate_all Raw validate payload = None
  <-> exists r, In r payload /\ validate r = None.
Proof.
  induction payload as [|r rs IH]; simpl.
  - split; [discriminate|]. intros (r & [] & _).
  - destruct (validate r) as [p|] eqn:Hr.
    + destruct (validate_all Raw validate rs) as [ps|] eqn:Hrs.
      * split; [discriminate|].
        intros (r' & [<-|Hin] & Hnone); [congruence|].
        assert (Some ps = None) by (apply IH; eauto). discriminate.
      * split; [|reflexivity]. intros _.
        destruct (proj1 IH eq_refl) as (r' & Hin & Hnone). eauto.
    + split; [|reflexivity]. intros _. exists r. auto.
Qed.

Lemma validate_all_some payload people :
  validate_all Raw validate payload = Some people ->
  Forall2 (fun r p => validate r = Some p) payload people.
Proof.
  revert people. induction payload as [|r rs IH]; simpl; intros people H.
  - inversion H. constructor.
  - destruct (validate r) as [p|] eqn:Hr; [|discriminate].
    destruct (validate_all Raw validate rs) as [ps|]; [|discriminate].
    inversion H. constructor; auto.
Qed.

(** C3: if some record of the payload fails validation, the call fails
    with the validation error and the cache, hence any prior snapshot,
    is returned unchanged; if every record validates, the ["people"]
    entry becomes the list of validated records, one per payload
    element in payload order, and the response is the message made of
    the decimal numeral of the payload length followed by
    [" pessoas armazenadas em cache"], from which that length, the
    number of records stored, reads back. *)
Theorem post_users_all_or_nothing (cache : gmap string (list Person))
    (payload : list Raw) :
  ((exists r, In r payload /\ validate r = None) ->
   post_users Raw validate cache payload = (cache, RequestValidationError))
  /\ ((forall r, In r payload -> validate r <> None) ->
      exists people,
        Forall2 (fun r p => validate r = Some p) payload people
        /\ post_users Raw validate cache payload
           = (<[people_key := people]> cache,
              Ok (stored_message (length payload)))
        /\ (post_users Raw validate cache payload).1 !! people_key = Some people
        /\ length people = length payload
        /\ (post_users Raw validate cache payload).2
           = Ok (NilZero.string_of_uint (Nat.to_uint (length payload))
                 ++ " pessoas armazenadas em cache")
        /\ (forall message,
              (post_users Raw validate cache payload).2 = Ok message ->
              read_count message = Some (length people))).
Proof.
  unfold post_users. split.
  - intros Hbad. apply validate_all_none in Hbad. rewrite Hbad. reflexivity.
  - intros Hgood.
    destruct (validate_all Raw validate payload) as [people|] eqn:Hall.
    + pose proof (validate_all_some _ _ Hall) as Hf.
      pose proof (Forall2_length _ _ _ Hf) as Hlen.
      exists people. rewrite <- Hlen.
      split; [exact Hf|]. split; [reflexivity|].
      split; [simpl; apply lookup_insert_eq|]. split; [reflexivity|].
      split; [reflexivity|].
      cbn [snd]. intros message [= <-]. apply read_count_stored_message.
    + apply validate_all_none in Hall. destruct Hall as (r & Hin & Hnone).
      destruct (Hgood r Hin Hnone).
Qed.

(** C10: ingesting the empty list stores an empty snapshot, after
    which every query handler answers with [total = 0] and no data
    instead of raising the 404 exception. *)
Theorem empty_ingestion_then_queries (cache : gmap string (list Person)) :
  let cache' := (post_users Raw validate cache []).1 in
  cache' !! people_key = Some []
  /\ get_users cache' = Ok {| total := 0; body_data := [] |}
  /\ top_countries cache' = Ok {| total := 0; body_data := [] |}
  /\ team_insights cache' = Ok {| total := 0; body_data := [] |}
  /\ (forall min, min_valid min = true ->
        active_users_per_day cache' min = Ok {| total := 0; body_data := [] |}).
Proof.
  intros cache'.
  assert (Hc : cache' !! people_key = Some []).
  { unfold cache', post_users. simpl. apply lookup_insert_eq. }
  unfold get_users, top_countries, team_insights, active_users_per_day,
    active_users_per_day_body.
  rewrite Hc. repeat split. intros [m|] ->; reflexivity.
Qed.
End IngestionFacts.

Lemma sample_cache_people : sample_cache !! people_key = Some sample_people.
Proof. apply lookup_insert_eq. Qed.

Lemma post_users_all_or_nothing_witness :
  post_users RawExample validate_example sample_cache
    [WellFormed ana; Malformed "score"]
  = (sample_cache, RequestValidationError)
  /\ exists people,
       Forall2 (fun r p => validate_example r = Some p)
         [WellFormed ana; WellFormed bob] people
       /\ post_users RawExample validate_example sample_cache
            [WellFormed ana; WellFormed bob]
          = (<[people_key := people]> sample_cache,
             Ok (stored_message 2))
       /\ (post_users RawExample validate_example sample_cache
             [WellFormed ana; WellFormed bob]).1 !! people_key = Some people
       /\ length people = 2%nat
       /\ (post_users RawExample validate_example sample_cache
             [WellFormed ana; WellFormed bob]).2
          = Ok "2 pessoas armazenadas em cache"
       /\ (forall message,
             (post_users RawExample validate_example sample_cache
                [WellFormed ana; WellFormed bob]).2 = Ok message ->
             read_count message = Some (length people)).
Proof.
  split.
  - apply (proj1 (post_users_all_or_nothing RawExample validate_example
                    sample_cache [WellFormed ana; Malformed "score"])).
    exists (Malformed "score"). split; [simpl; auto|reflexivity].
  - apply (proj2 (post_users_all_or_nothing RawExample validate_example
                    sample_cache [WellFormed ana; WellFormed bob])).
    intros r [<-|[<-|[]]]; discriminate.
Defined.

Lemma empty_ingestion_then_queries_witness :
  active_users_per_day
    (post_users RawExample validate_example cache_init []).1 (Some 2)
  = Ok {| total := 0; body_data := [] |}.
Proof.
  apply (proj2 (proj2 (proj2 (proj2
    (empty_ingestion_then_queries RawExample validate_example cache_init))))).
  reflexivity.
Defined.

(** ** GET /users *)

Lemma filter_sublist {A} (f : A -> bool) (l : list A) :
  sublist (List.filter f l) l.
Proof.
  induction l as [|x l IH]; simpl; [constructor|].
  destruct (f x); [apply sublist_skip|apply sublist_cons]; exact IH.
Qed.

Lemma sublist_filter_max {A} (f : A -> bool) (l' l : list A) :
  sublist l' l -> Forall (fun x => f x = true) l' ->
  sublist l' (List.filter f l).
Proof.
  induction 1 as [|x l1 l2 _ IH|x l1 l2 _ IH]; intros Hall; simpl.
  - constructor.
  - inversion Hall as [|? ? Hx Hrest]; subst. rewrite Hx.
    apply sublist_skip. auto.
  - destruct (f x); [apply sublist_cons|]; auto.
Qed.

Lemma is_superuser_spec person :
  is_superuser person = true <-> 900 <= score person /\ ativo person = true.
Proof.
  unfold is_superuser. rewrite andb_true_iff, Z.leb_le. reflexivity.
Qed.

(** C4: on a snapshot, GET /users answers with a list that is a
    subsequence of the snapshot (so in ingestion order), that holds
    exactly the records with [score >= 900] and [ativo], each as often
    as the snapshot does (every subsequence of qualifying records of the
    snapshot is a subsequence of the answer), and [total] is its
    length. *)
Theorem get_users_superusers (cache : gmap string (list Person)) people :
  cache !! people_key = Some people ->
  exists body,
    get_users cache = Ok body
    /\ sublist (body_data body) people
    /\ (forall person, In person (body_data body)
          <-> In person people /\ 900 <= score person /\ ativo person = true)
    /\ (forall l, sublist l people ->
          Forall (fun person => 900 <= score person /\ ativo person = true) l ->
          sublist l (body_data body))
    /\ total body = len (body_data body).
Proof.
  intros Hc. unfold get_users. rewrite Hc. eexists. split; [reflexivity|].
  simpl. split; [apply filter_sublist|]. split; [|split; [|reflexivity]].
  - intros person. rewrite filter_In, is_superuser_spec. reflexivity.
  - intros l Hsub Hall. apply sublist_filter_max; [exact Hsub|].
    eapply Forall_impl; [exact Hall|]. intros p Hp. apply is_superuser_spec; exact Hp.
Qed.

Lemma get_users_superusers_witness :
  exists body,
    get_users sample_cache = Ok body
    /\ sublist (body_data body) sample_people
    /\ (forall person, In person (body_data body)
          <-> In person sample_people /\ 900 <= score person /\ ativo person = true)
    /\ (forall l, sublist l sample_people ->
          Forall (fun person => 900 <= score person /\ ativo person = true) l ->
          sublist l (body_data body))
    /\ total body = len (body_data body).
Proof. apply (get_users_superusers sample_cache). apply sample_cache_people. Defined.

Example get_users_sample :
  get_users sample_cache = Ok {| total := 1; body_data := [ana] |}.
Proof. unfold get_users. rewrite sample_cache_people. reflexivity. Qed.

(** ** Counting in insertion order *)

Section DictFacts.
Context {K V : Type} `{EqDecision K}.
Implicit Types (d : Dict.t K V) (k : K).

Lemma get_update k k' dflt f d :
  Dict.get k' (Dict.update k dflt f d)
  = if decide (k' = k) then Some (f (default dflt (Dict.get k d)))
    else Dict.get k' d.
Proof.
  induction d as [|[k0 v0] d IH]; simpl.
  - destruct (decide (k' = k)); reflexivity.
  - destruct (decide (k = k0)) as [->|Hne]; simpl.
    + destruct (decide (k' = k0)); reflexivity.
    + rewrite IH. destruct (decide (k' = k0)) as [->|]; [|reflexivity].
      rewrite decide_False by congruence. reflexivity.
Qed.

Lemma keys_update k dflt f d :
  Dict.keys (Dict.update k dflt f d)
  = (Dict.keys d ++ if decide (k ∈ Dict.keys d) then [] else [k])%list.
Proof.
  unfold Dict.keys. induction d as [|[k0 v0] d IH].
  - cbn [Dict.update map fst app].
    destruct (decide (k ∈ [])) as [Hin|_]; [inversion Hin|reflexivity].
  - cbn [Dict.update map fst app].
    destruct (decide (k = k0)) as [->|Hne]; cbn [map fst].
    + destruct (decide (k0 ∈ k0 :: map fst d)) as [_|Hnin].
      * rewrite app_nil_r. reflexivity.
      * destruct Hnin. apply list_elem_of_here.
    + rewrite IH. f_equal.
      destruct (decide (k ∈ map fst d)) as [Hin|Hnin];
        destruct (decide (k ∈ k0 :: map fst d)) as [Hin'|Hnin'];
        try reflexivity.
      * destruct Hnin'. apply list_elem_of_further, Hin.
      * apply elem_of_cons in Hin'. tauto.
Qed.

Lemma get_Some_In k v d : Dict.get k d = Some v -> In (k, v) d.
Proof.
  induction d as [|[k0 v0] d IH]; simpl; [discriminate|].
  destruct (decide (k = k0)) as [->|]; [|auto].
  intros [= ->]. auto.
Qed.

Lemma In_get_Some k v d :
  NoDup (Dict.keys d) -> In (k, v) d -> Dict.get k d = Some v.
Proof.
  unfold Dict.keys. induction d as [|[k0 v0] d IH]; simpl; [tauto|].
  intros Hnd [Heq|Hin].
  - inversion Heq; subst. rewrite decide_True; reflexivity.
  - apply NoDup_cons_1_1 in Hnd as Hk0. apply NoDup_cons_1_2 in Hnd.
    destruct (decide (k = k0)) as [->|]; [|auto].
    exfalso. apply Hk0. apply list_elem_of_In.
    change k0 with (fst (k0, v)). apply in_map. exact Hin.
Qed.
End DictFacts.

Section IndexFacts.
Context {K : Type} `{EqDecision K}.
Implicit Types (k : K) (l : list K).

Lemma index_Some_lt k l a : index k l = Some a -> (a < length l)%nat.
Proof.
  revert a. induction l as [|y l IH]; simpl; intros a; [discriminate|].
  destruct (decide (k = y)).
  - intros [= <-]. lia.
  - destruct (index k l) as [b|]; simpl; [|discriminate].
    intros [= <-]. specialize (IH b eq_refl). lia.
Qed.

Lemma index_In k l : In k l -> exists a, index k l = Some a.
Proof.
  induction l as [|y l IH]; simpl; [tauto|].
  intros Hin. destruct (decide (k = y)); [eauto|].
  destruct IH as [a Ha]; [destruct Hin; congruence|].
  rewrite Ha. simpl. eauto.
Qed.

Lemma index_None k l : ~ In k l -> index k l = None.
Proof.
  induction l as [|y l IH]; simpl; [reflexivity|].
  intros Hnin. rewrite decide_False by (intros ->; tauto).
  rewrite IH by tauto. reflexivity.
Qed.

Lemma index_app_l k l l' a :
  index k l = Some a -> index k (l ++ l') = Some a.
Proof.
  revert a. induction l as [|y l IH]; simpl; intros a; [discriminate|].
  destruct (decide (k = y)); [auto|].
  destruct (index k l) as [b|]; simpl; [|discriminate].
  intros [= <-]. rewrite (IH b eq_refl). reflexivity.
Qed.

Lemma index_snoc_new k l :
  ~ In k l -> index k (l ++ [k]) = Some (length l).
Proof.
  induction l as [|y l IH]; simpl; intros Hnin.
  - rewrite decide_True; reflexivity.
  - rewrite decide_False by (intros ->; tauto).
    rewrite IH by tauto. reflexivity.
Qed.

Lemma seen_before_app_l src src' k1 k2 :
  seen_before src k1 k2 -> seen_before (src ++ src') k1 k2.
Proof.
  intros (a & b & Ha & Hb & Hlt). exists a, b.
  repeat split; auto using index_app_l.
Qed.

Lemma seen_before_snoc_new src k1 k2 :
  In k1 src -> ~ In k2 src -> seen_before (src ++ [k2]) k1 k2.
Proof.
  intros Hin Hnin. destruct (index_In _ _ Hin) as [a Ha].
  exists a, (length src). repeat split.
  - apply index_app_l. exact Ha.
  - apply index_snoc_new. exact Hnin.
  - eapply index_Some_lt. exact Ha.
Qed.

Lemma occurrences_nonneg k l : 0 <= occurrences k l.
Proof. induction l as [|y l IH]; simpl; [lia|]. destruct (decide (k = y)); lia. Qed.

Lemma occurrences_app k l l' :
  occurrences k (l ++ l') = occurrences k l + occurrences k l'.
Proof. induction l as [|y l IH]; simpl; [reflexivity|]. rewrite IH. lia. Qed.

Lemma occurrences_pos k l : 0 < occurrences k l <-> In k l.
Proof.
  induction l as [|y l IH]; simpl; [split; [lia|tauto]|].
  pose proof (occurrences_nonneg k l).
  destruct (decide (k = y)) as [->|Hne].
  - split; [auto|lia].
  - rewrite Z.add_0_l, IH. split; [auto|]. intros [?|?]; [congruence|auto].
Qed.
End IndexFacts.

Lemma StronglySorted_weaken {A} (R1 R2 : relation A) l :
  (forall x y, In x l -> In y l -> R1 x y -> R2 x y) ->
  StronglySorted R1 l -> StronglySorted R2 l.
Proof.
  intros Himp Hs. induction Hs as [|x l Hs IH Hall]; constructor.
  - apply IH. intros a b Ha Hb. apply Himp; simpl; auto.
  - apply Forall_forall. intros y Hy. rewrite Forall_forall in Hall.
    apply list_elem_of_In in Hy as Hy'.
    apply Himp; simpl; auto.
Qed.

Lemma StronglySorted_of_map {A B} (f : A -> B) (R : relation B) l :
  StronglySorted R (map f l) -> StronglySorted (fun x y => R (f x) (f y)) l.
Proof.
  induction l as [|x l IH]; simpl; intros Hs; [constructor|].
  apply StronglySorted_inv in Hs as [Hs Hall]. constructor; [auto|].
  apply Forall_forall. intros y Hy. rewrite Forall_forall in Hall. apply Hall.
  apply list_elem_of_In, in_map, list_elem_of_In, Hy.
Qed.

Lemma StronglySorted_sublist {A} (R : relation A) l' l :
  sublist l' l -> StronglySorted R l -> StronglySorted R l'.
Proof.
  induction 1 as [|x l1 l2 Hsub IH|x l1 l2 Hsub IH]; intros Hs.
  - constructor.
  - apply StronglySorted_inv in Hs as [Hs Hall]. constructor; [auto|].
    apply Forall_forall. intros y Hy. rewrite Forall_forall in Hall. apply Hall.
    apply (sublist_subseteq _ _ Hsub), Hy.
  - apply StronglySorted_inv in Hs as [Hs _]. auto.
Qed.

Section CounterFacts.
Context {K : Type} `{EqDecision K}.
Implicit Types (k : K) (l : list K).

Lemma Counter_snoc l k :
  Counter (l ++ [k]) = Dict.update k 0 (fun c => c + 1) (Counter l).
Proof. unfold Counter. rewrite fold_left_app. reflexivity. Qed.

Lemma Counter_get k l :
  Dict.get k (Counter l)
  = if decide (occurrences k l = 0) then None else Some (occurrences k l).
Proof.
  induction l as [|k' l IH] using rev_ind; [reflexivity|].
  rewrite Counter_snoc, get_update, occurrences_app. simpl occurrences.
  pose proof (occurrences_nonneg k l) as Hnn.
  destruct (decide (k = k')) as [<-|Hne].
  - rewrite IH.
    destruct (decide (occurrences k l = 0)) as [H0|H0]; simpl;
      rewrite decide_False by lia; f_equal; lia.
  - rewrite IH. replace (occurrences k l + (0 + 0)) with (occurrences k l) by lia.
    reflexivity.
Qed.

Lemma Counter_keys_In k l : In k (Dict.keys (Counter l)) <-> In k l.
Proof.
  revert k. induction l as [|k' l IH] using rev_ind; intros k; [reflexivity|].
  rewrite Counter_snoc, keys_update, !in_app_iff, IH.
  destruct (decide (k' ∈ Dict.keys (Counter l))) as [Hin|Hnin]; simpl.
  - apply list_elem_of_In, IH in Hin.
    split; [tauto|]. intros [?|[<-|[]]]; auto.
  - tauto.
Qed.

Lemma Counter_keys_NoDup l : NoDup (Dict.keys (Counter l)).
Proof.
  induction l as [|k' l IH] using rev_ind; [constructor|].
  rewrite Counter_snoc, keys_update.
  destruct (decide (k' ∈ Dict.keys (Counter l))) as [Hin|Hnin].
  - rewrite app_nil_r. exact IH.
  - apply NoDup_app. repeat split; [exact IH| |apply NoDup_singleton].
    intros x Hx Hx'. apply list_elem_of_singleton in Hx'. subst. auto.
Qed.

Lemma Counter_keys_order l :
  StronglySorted (seen_before l) (Dict.keys (Counter l)).
Proof.
  induction l as [|k' l IH] using rev_ind; [constructor|].
  rewrite Counter_snoc, keys_update.
  assert (Hold : StronglySorted (seen_before (l ++ [k'])) (Dict.keys (Counter l))).
  { eapply StronglySorted_weaken; [|exact IH].
    intros x y _ _. apply seen_before_app_l. }
  destruct (decide (k' ∈ Dict.keys (Counter l))) as [Hin|Hnin].
  - rewrite app_nil_r. exact Hold.
  - apply StronglySorted_app_2; [|exact Hold|repeat constructor].
    intros x1 x2 Hx1 Hx2. apply list_elem_of_singleton in Hx2. subst.
    apply seen_before_snoc_new.
    + apply Counter_keys_In, list_elem_of_In, Hx1.
    + intros Hk'. apply Hnin, list_elem_of_In, Counter_keys_In, Hk'.
Qed.

Lemma sum_counts_update k (d : Dict.t K Z) :
  sum_counts (Dict.update k 0 (fun c => c + 1) d) = sum_counts d + 1.
Proof.
  unfold sum_counts. induction d as [|[k0 c0] d IH]; simpl; [reflexivity|].
  destruct (decide (k = k0)); simpl; lia.
Qed.

Lemma Counter_sum l : sum_counts (Counter l) = len l.
Proof.
  unfold len. induction l as [|k' l IH] using rev_ind; [reflexivity|].
  rewrite Counter_snoc, sum_counts_update, IH, length_app. simpl. lia.
Qed.

(** The items of a counter are exactly the elements met, each with
    the number of times it was met. *)
Lemma Counter_In k c l :
  In (k, c) (Counter l) <-> c = occurrences k l /\ 0 < c.
Proof.
  pose proof (occurrences_nonneg k l) as Hnn. split.
  - intros Hin. apply In_get_Some in Hin; [|apply Counter_keys_NoDup].
    rewrite Counter_get in Hin.
    destruct (decide (occurrences k l = 0)); [discriminate|].
    inversion Hin. lia.
  - intros [-> Hpos]. apply get_Some_In. rewrite Counter_get.
    rewrite decide_False by lia. reflexivity.
Qed.
End CounterFacts.

(** ** GET /active-users-per-day *)

Lemma count_logs_fold d entries :
  count_logs d entries
  = fold_left (fun d k => Dict.update k 0 (fun c => c + 1) d)
      (map data (List.filter is_login entries)) d.
Proof.
  unfold count_logs. revert d.
  induction entries as [|log entries IH]; intros d; simpl; [reflexivity|].
  destruct (is_login log) eqn:E; unfold is_login in E; rewrite E; simpl; apply IH.
Qed.

Lemma login_count_by_day_Counter people :
  login_count_by_day people = Counter (login_dates people).
Proof.
  unfold login_count_by_day, Counter, login_dates.
  generalize (@nil (date * Z)) as d.
  induction people as [|u people IH]; intros d; simpl; [reflexivity|].
  rewrite fold_left_app, IH, count_logs_fold. reflexivity.
Qed.

Lemma login_dates_In d people :
  In d (login_dates people)
  <-> exists usuario log,
        In usuario people /\ In log (logs usuario)
        /\ acao log = "login" /\ data log = d.
Proof.
  unfold login_dates. rewrite in_concat. split.
  - intros (l & Hl & Hd). apply in_map_iff in Hl as (u & <- & Hu).
    apply in_map_iff in Hd as (log & <- & Hlog).
    apply filter_In in Hlog as [Hlog Hact].
    exists u, log. repeat split; auto. apply String.eqb_eq, Hact.
  - intros (u & log & Hu & Hlog & Hact & <-).
    exists (map data (List.filter is_login (logs u))). split.
    + apply in_map_iff. eauto.
    + apply in_map, filter_In. split; [exact Hlog|].
      apply String.eqb_eq, Hact.
Qed.

Lemma filter_sublist_mono {A} (f g : A -> bool) (l : list A) :
  (forall x, f x = true -> g x = true) ->
  sublist (List.filter f l) (List.filter g l).
Proof.
  intros Himp. induction l as [|x l IH]; simpl; [constructor|].
  destruct (f x) eqn:Hf.
  - rewrite (Himp x Hf). apply sublist_skip, IH.
  - destruct (g x); [apply sublist_cons|]; exact IH.
Qed.

Lemma sublist_keys {K V} (l' l : list (K * V)) :
  sublist l' l -> sublist (Dict.keys l') (Dict.keys l).
Proof.
  unfold Dict.keys.
  induction 1; simpl; [constructor|apply sublist_skip|apply sublist_cons]; auto.
Qed.

Lemma len_sublist {A} (l' l : list A) : sublist l' l -> len l' <= len l.
Proof. intros Hs. apply sublist_length in Hs. unfold len. lia. Qed.

(** What the handler returns on a snapshot, for a valid [min]. *)
Lemma active_users_per_day_on cache people min :
  cache !! people_key = Some people ->
  min_valid min = true ->
  active_users_per_day cache min
  = let counts :=
      match min with
      | Some m => List.filter (fun item => m <=? item.2) (Counter (login_dates people))
      | None => Counter (login_dates people)
      end in
    Ok {| total := len counts; body_data := counts |}.
Proof.
  intros Hc Hv. unfold active_users_per_day, active_users_per_day_body.
  rewrite Hv, Hc, login_count_by_day_Counter. reflexivity.
Qed.

(** C7: on a snapshot, the answer lists a date with a count exactly when
    the count is the number of ["login"] entries of that date over all
    records, is at least one and, when [min] is given, at least [min];
    no date is listed twice; dates come in the order in which their
    first login entry is met; [total] is the number of listed days. *)
Theorem active_users_per_day_counts cache people min :
  cache !! people_key = Some people ->
  min_valid min = true ->
  exists body,
    active_users_per_day cache min = Ok body
    /\ (forall d c, In (d, c) (body_data body)
          <-> c = occurrences d (login_dates people) /\ 0 < c
              /\ (forall m, min = Some m -> m <= c))
    /\ NoDup (Dict.keys (body_data body))
    /\ StronglySorted
         (fun x y => seen_before (login_dates people) x.1 y.1) (body_data body)
    /\ total body = len (body_data body).
Proof.
  intros Hc Hv. rewrite (active_users_per_day_on _ _ _ Hc Hv).
  eexists. split; [reflexivity|]. cbn [body_data total].
  pose proof (Counter_keys_NoDup (login_dates people)) as Hnd.
  pose proof (StronglySorted_of_map fst _ _ (Counter_keys_order (login_dates people)))
    as Hord.
  destruct min as [m|]; (split; [intros d c; split|split; [|split; [|reflexivity]]]).
  - intros Hin. apply filter_In in Hin as [Hin Hm]. apply Counter_In in Hin.
    simpl in Hm. apply Z.leb_le in Hm.
    repeat split; try tauto. intros m' [= <-]. exact Hm.
  - intros (-> & Hpos & Hmin). apply filter_In. split.
    + apply Counter_In. auto.
    + simpl. apply Z.leb_le. auto.
  - eapply sublist_NoDup; [exact Hnd|apply sublist_keys, filter_sublist].
  - eapply StronglySorted_sublist; [apply filter_sublist|exact Hord].
  - intros Hin. apply Counter_In in Hin. repeat split; try tauto. discriminate.
  - intros (-> & Hpos & _). apply Counter_In. auto.
  - exact Hnd.
  - exact Hord.
Qed.

(** C8: on a snapshot, raising [min] from [m1] to [m2] keeps a
    subsequence of the days, so the result does not grow; without [min]
    the listed days are exactly the dates that have at least one
    ["login"] entry in some record. *)
Theorem min_filter_monotone cache people (m1 m2 : Z) :
  cache !! people_key = Some people ->
  0 <= m1 -> m1 <= m2 ->
  exists b1 b2 b0,
    active_users_per_day cache (Some m1) = Ok b1
    /\ active_users_per_day cache (Some m2) = Ok b2
    /\ active_users_per_day cache None = Ok b0
    /\ total b2 <= total b1
    /\ sublist (body_data b2) (body_data b1)
    /\ (forall d, In d (Dict.keys (body_data b0))
          <-> exists usuario log,
                In usuario people /\ In log (logs usuario)
                /\ acao log = "login" /\ data log = d)
    /\ (forall d c, In (d, c) (body_data b0) -> 1 <= c).
Proof.
  intros Hc H1 H12.
  rewrite (active_users_per_day_on _ _ (Some m1) Hc) by (apply Z.leb_le; lia).
  rewrite (active_users_per_day_on _ _ (Some m2) Hc) by (apply Z.leb_le; lia).
  rewrite (active_users_per_day_on _ _ None Hc) by reflexivity.
  do 3 eexists. do 3 (split; [reflexivity|]). cbn [body_data total].
  assert (Hsub : sublist
            (List.filter (fun item : date * Z => m2 <=? item.2)
               (Counter (login_dates people)))
            (List.filter (fun item : date * Z => m1 <=? item.2)
               (Counter (login_dates people)))).
  { apply filter_sublist_mono. intros x Hx.
    apply Z.leb_le in Hx. apply Z.leb_le. lia. }
  split; [apply len_sublist, Hsub|]. split; [exact Hsub|]. split.
  - intros d. split.
    + intros Hin. apply login_dates_In, Counter_keys_In, Hin.
    + intros Hex. apply Counter_keys_In, login_dates_In, Hex.
  - intros d c Hin. apply Counter_In in Hin. lia.
Qed.

(** ** GET /top-countries *)

Section SortFacts.
Context {K : Type}.
Implicit Types (x y z : K * Z) (l s : list (K * Z)).

Lemma insert_desc_In z x s : In z (insert_desc x s) <-> z = x \/ In z s.
Proof.
  induction s as [|y s IH]; simpl; [intuition congruence|].
  destruct (x.2 >=? y.2); simpl; [intuition congruence|].
  rewrite IH. intuition congruence.
Qed.

Lemma insert_desc_Permutation x s : Permutation (insert_desc x s) (x :: s).
Proof.
  induction s as [|y s IH]; simpl; [reflexivity|].
  destruct (x.2 >=? y.2); [reflexivity|].
  rewrite IH. apply perm_swap.
Qed.

Lemma sorted_desc_Permutation l : Permutation (sorted_desc l) l.
Proof.
  induction l as [|x l IH]; simpl; [reflexivity|].
  rewrite insert_desc_Permutation, IH. reflexivity.
Qed.

Lemma insert_desc_ranked (Q : relation (K * Z)) x s :
  StronglySorted (ranked Q) s ->
  Forall (Q x) s ->
  StronglySorted (ranked Q) (insert_desc x s).
Proof.
  intros Hs HQ. induction Hs as [|y s Hs IH Hy]; simpl.
  - repeat constructor.
  - apply Forall_cons_1 in HQ as [HQy HQs].
    destruct (Z.geb_spec x.2 y.2) as [Hge|Hlt].
    + constructor; [constructor; assumption|].
      assert (Hxy : ranked Q x y).
      { unfold ranked. destruct (Z.eq_dec x.2 y.2); [right|left]; auto; lia. }
      constructor; [exact Hxy|].
      apply Forall_forall. intros z Hz.
      rewrite Forall_forall in Hy, HQs.
      specialize (Hy z Hz). specialize (HQs z Hz).
      unfold ranked in *. destruct (Z.eq_dec x.2 z.2); [right|left]; auto; lia.
    + constructor; [apply IH; exact HQs|].
      apply Forall_forall. intros z Hz.
      apply list_elem_of_In, insert_desc_In in Hz as [->|Hz].
      * left. lia.
      * rewrite Forall_forall in Hy. apply Hy, list_elem_of_In, Hz.
Qed.

(** Stability: where the input is ordered by [Q], equal counts keep
    that order in the output. *)
Lemma sorted_desc_ranked (Q : relation (K * Z)) l :
  StronglySorted Q l -> StronglySorted (ranked Q) (sorted_desc l).
Proof.
  induction 1 as [|x l Hs IH Hx]; simpl; [constructor|].
  apply insert_desc_ranked; [exact IH|].
  apply Forall_forall. intros z Hz. rewrite Forall_forall in Hx. apply Hx.
  apply list_elem_of_In. apply list_elem_of_In in Hz.
  eapply Permutation_in; [apply sorted_desc_Permutation|exact Hz].
Qed.

Lemma sum_counts_Permutation l l' :
  Permutation l l' -> sum_counts l = sum_counts l'.
Proof.
  unfold sum_counts. induction 1; simpl; lia.
Qed.

Lemma sum_counts_app l l' : sum_counts (l ++ l') = sum_counts l + sum_counts l'.
Proof. unfold sum_counts. induction l; simpl; lia. Qed.

Lemma sum_counts_nonneg l :
  (forall x, In x l -> 0 <= x.2) -> 0 <= sum_counts l.
Proof.
  unfold sum_counts. induction l as [|x l IH]; simpl; intros Hall; [lia|].
  specialize (Hall x (or_introl eq_refl)) as Hx.
  assert (0 <= fold_right Z.add 0 (map snd l)) by (apply IH; auto).
  lia.
Qed.

Lemma sum_counts_take n l :
  (forall x, In x l -> 0 <= x.2) -> sum_counts (take n l) <= sum_counts l.
Proof.
  intros Hall. rewrite <- (take_drop n l) at 2. rewrite sum_counts_app.
  assert (0 <= sum_counts (drop n l)); [|lia].
  apply sum_counts_nonneg. intros x Hx. apply Hall.
  apply list_elem_of_In. apply list_elem_of_In in Hx.
  apply (sublist_subseteq _ _ (sublist_drop l n)), Hx.
Qed.
End SortFacts.

Lemma occurrences_superusuarios c people :
  occurrences c (superusuarios people) = over_800_in c people.
Proof.
  unfold superusuarios, over_800_in, len.
  induction people as [|u people IH]; simpl; [reflexivity|].
  destruct (800 <? score u); simpl; [|exact IH].
  rewrite IH. destruct (decide (c = pais u)) as [->|Hne].
  - rewrite bool_decide_eq_true_2 by reflexivity. simpl length. lia.
  - rewrite bool_decide_eq_false_2 by congruence. lia.
Qed.

Lemma superusuarios_length people :
  len (superusuarios people)
  = len (List.filter (fun usuario => 800 <? score usuario) people).
Proof. unfold superusuarios, len. rewrite length_map. reflexivity. Qed.

Lemma top_countries_on cache people :
  cache !! people_key = Some people ->
  top_countries cache
  = let top := take 5 (sorted_desc (Counter (superusuarios people))) in
    Ok {| total := len top; body_data := top |}.
Proof. intros Hc. unfold top_countries. rewrite Hc. reflexivity. Qed.

(** C5: on a snapshot, GET /top-countries answers with at most five
    pairs; each pair gives a country and the number of its records with
    [score > 800], which is at least one; no country appears twice; the
    pairs are in descending order of count and, among equal counts, in
    the order in which the countries are first met in the snapshot; the
    counts add up to at most the number of records with [score > 800];
    a country with such a record is left out only when five are listed,
    none of them with a smaller count. *)
Theorem top_countries_ranking cache people :
  cache !! people_key = Some people ->
  exists body,
    top_countries cache = Ok body
    /\ (length (body_data body) <= 5)%nat
    /\ (forall c k, In (c, k) (body_data body) ->
          k = over_800_in c people /\ 0 < k)
    /\ NoDup (Dict.keys (body_data body))
    /\ StronglySorted
         (ranked (fun x y => seen_before (superusuarios people) x.1 y.1))
         (body_data body)
    /\ sum_counts (body_data body)
       <= len (List.filter (fun usuario => 800 <? score usuario) people)
    /\ (forall c, 0 < over_800_in c people ->
          ~ In c (Dict.keys (body_data body)) ->
          length (body_data body) = 5%nat
          /\ forall c' k', In (c', k') (body_data body) ->
               over_800_in c people <= k')
    /\ total body = len (body_data body).
Proof.
  intros Hc. rewrite (top_countries_on _ _ Hc).
  eexists. split; [reflexivity|]. cbn [body_data total].
  set (src := superusuarios people).
  set (sorted := sorted_desc (Counter src)).
  assert (Hperm : Permutation sorted (Counter src))
    by apply sorted_desc_Permutation.
  assert (Hin : forall c k, In (c, k) sorted -> k = over_800_in c people /\ 0 < k).
  { intros c k H. eapply Permutation_in in H; [|exact Hperm].
    apply Counter_In in H. unfold src in H.
    rewrite occurrences_superusuarios in H. exact H. }
  assert (Hsorted : StronglySorted
            (ranked (fun x y => seen_before src x.1 y.1)) sorted).
  { apply sorted_desc_ranked.
    apply (StronglySorted_of_map fst), Counter_keys_order. }
  assert (Htake : forall x, In x (take 5 sorted) -> In x sorted).
  { intros x Hx. apply list_elem_of_In. apply list_elem_of_In in Hx.
    apply (sublist_subseteq _ _ (sublist_take sorted 5)), Hx. }
  split; [rewrite length_take; lia|].
  split; [intros c k H; apply Hin, Htake, H|].
  split.
  { eapply sublist_NoDup; [|apply sublist_keys, sublist_take].
    assert (Hkeys : Permutation (Dict.keys sorted) (Dict.keys (Counter src)))
      by (apply Permutation_map, Hperm).
    rewrite Hkeys. apply Counter_keys_NoDup. }
  split; [eapply StronglySorted_sublist; [apply sublist_take|exact Hsorted]|].
  split.
  { rewrite <- superusuarios_length. fold src. rewrite <- (Counter_sum src).
    rewrite <- (sum_counts_Permutation _ _ Hperm).
    apply sum_counts_take. intros [c k] H. apply Hin in H. simpl. lia. }
  split; [|reflexivity].
  intros c Hpos Hout.
  assert (Hc_in : In (c, over_800_in c people) sorted).
  { eapply Permutation_in; [symmetry; exact Hperm|].
    apply Counter_In. unfold src. rewrite occurrences_superusuarios. auto. }
  rewrite <- (take_drop 5 sorted) in Hc_in, Hsorted.
  apply in_app_or in Hc_in as [Hc_in|Hc_in].
  { destruct Hout. unfold Dict.keys.
    change c with (fst (c, over_800_in c people)). apply in_map, Hc_in. }
  split.
  - rewrite length_take.
    destruct (le_lt_dec 5 (length sorted)) as [Hle|Hlt]; [lia|].
    rewrite drop_ge in Hc_in by lia. destruct Hc_in.
  - intros c' k' H.
    assert (Hr : ranked (fun x y => seen_before src x.1 y.1)
                   (c', k') (c, over_800_in c people)).
    { eapply StronglySorted_app_1_elem_of;
        [exact Hsorted|apply list_elem_of_In, H|apply list_elem_of_In, Hc_in]. }
    destruct Hr as [Hr|[Hr _]]; simpl in Hr; lia.
Qed.

Lemma top_countries_ranking_witness :
  exists body,
    top_countries sample_cache = Ok body
    /\ (length (body_data body) <= 5)%nat
    /\ (forall c k, In (c, k) (body_data body) ->
          k = over_800_in c sample_people /\ 0 < k)
    /\ NoDup (Dict.keys (body_data body))
    /\ StronglySorted
         (ranked (fun x y => seen_before (superusuarios sample_people) x.1 y.1))
         (body_data body)
    /\ sum_counts (body_data body)
       <= len (List.filter (fun usuario => 800 <? score usuario) sample_people)
    /\ (forall c, 0 < over_800_in c sample_people ->
          ~ In c (Dict.keys (body_data body)) ->
          length (body_data body) = 5%nat
          /\ forall c' k', In (c', k') (body_data body) ->
               over_800_in c sample_people <= k')
    /\ total body = len (body_data body).
Proof. apply (top_countries_ranking sample_cache). apply sample_cache_people. Defined.

(** The example of the specification: [BR, BR, US], all above 800. *)
Example top_countries_BR_BR_US :
  top_countries (<[people_key := [from "BR" 810; from "BR" 900; from "US" 801]]> cache_init)
  = Ok {| total := 2; body_data := [("BR", 2); ("US", 1)] |}.
Proof. unfold top_countries. rewrite lookup_insert_eq. reflexivity. Qed.

(** Equal counts keep first-met order, and only five are kept. *)
Example top_countries_ties :
  top_countries
    (<[people_key := [from "A" 900; from "B" 900; from "C" 900; from "B" 900;
                      from "D" 900; from "E" 900; from "F" 900; from "F" 900;
                      from "G" 800]]> cache_init)
  = Ok {| total := 5;
          body_data := [("B", 2); ("F", 2); ("A", 1); ("C", 1); ("D", 1)] |}.
Proof. unfold top_countries. rewrite lookup_insert_eq. reflexivity. Qed.

(** ** Bounds on the binary64 operations *)

Module FloatFacts.
Import Float.

Lemma up_pos e : 0 < up e.
Proof. unfold up. apply Z.pow_pos_nonneg; lia. Qed.

Lemma dn_pos e : 0 < dn e.
Proof. unfold dn. apply Z.pow_pos_nonneg; lia. Qed.

Lemma round_half_even_le n d bound :
  0 < d -> n <= bound * d -> round_half_even n d <= bound.
Proof.
  intros Hd Hn. unfold round_half_even.
  pose proof (Z.div_mod n d ltac:(lia)) as Hdm.
  pose proof (Z.mod_pos_bound n d Hd) as Hr.
  assert (Hq : n / d <= bound).
  { apply Z.div_le_upper_bound; lia. }
  destruct (Z.eq_dec (n / d) bound) as [Heq|Hne].
  - assert (n mod d = 0) by nia.
    destruct (Z.ltb_spec (2 * (n mod d)) d); lia.
  - destruct (2 * (n mod d) <? d); [lia|].
    destruct (d <? 2 * (n mod d)); [lia|].
    destruct (Z.even (n / d)); lia.
Qed.

Lemma round_half_even_nonneg n d :
  0 <= n -> 0 < d -> 0 <= round_half_even n d.
Proof.
  intros Hn Hd. unfold round_half_even.
  assert (0 <= n / d) by (apply Z.div_pos; lia).
  destruct (2 * (n mod d) <? d); [lia|].
  destruct (d <? 2 * (n mod d)); [lia|].
  destruct (Z.even (n / d)); lia.
Qed.

(** [ilog2] never overestimates. *)
Lemma ilog2_lower n d :
  0 < n -> 0 < d -> 0 <= ilog2 n d -> d * 2 ^ ilog2 n d <= n.
Proof.
  intros Hn Hd. unfold ilog2.
  set (k := Z.log2 n - Z.log2 d).
  destruct (Z.leb_spec (d * up k) (n * dn k)) as [Hle|Hgt]; intros Hk.
  - unfold up, dn in Hle.
    rewrite Z.max_l, Z.max_r in Hle by lia. simpl in Hle. lia.
  - destruct (Z.log2_spec n Hn) as [Hn1 _].
    destruct (Z.log2_spec d Hd) as [_ Hd2].
    pose proof (Z.log2_nonneg d) as Hld.
    assert (Hpow : 2 ^ Z.succ (Z.log2 d) * 2 ^ (k - 1) = 2 ^ Z.log2 n).
    { rewrite <- Z.pow_add_r by lia. f_equal. lia. }
    assert (0 < 2 ^ (k - 1)) by (apply Z.pow_pos_nonneg; lia).
    nia.
Qed.

Lemma RN_nonneg n d : 0 <= n -> 0 < d -> 0 <= mant (RN n d).
Proof.
  intros Hn Hd. unfold RN. destruct (n =? 0); simpl; [lia|].
  apply round_half_even_nonneg.
  - pose proof (dn_pos (Z.max emin (ilog2 n d - (prec - 1)))). nia.
  - pose proof (up_pos (Z.max emin (ilog2 n d - (prec - 1)))). nia.
Qed.

(** Rounding does not cross an integer below [2^52]: such an integer
    is itself a binary64 value. *)
Lemma RN_le n d bound :
  0 <= n -> 0 < d -> 0 <= bound < 2 ^ 52 -> n <= bound * d ->
  mant (RN n d) * up (expo (RN n d)) <= bound * dn (expo (RN n d)).
Proof.
  intros Hn Hd Hb Hle. unfold RN.
  destruct (Z.eqb_spec n 0) as [->|Hn0]; cbn [mant expo].
  - pose proof (dn_pos emin). nia.
  - set (e := Z.max emin (ilog2 n d - (prec - 1))).
    destruct (Z_le_gt_dec e 0) as [He|He].
    + assert (Hup : up e = 1) by (unfold up; rewrite Z.max_r by lia; reflexivity).
      rewrite Hup, Z.mul_1_r, Z.mul_1_r.
      pose proof (dn_pos e).
      apply round_half_even_le; [lia|nia].
    + exfalso. unfold e, emin, prec in He.
      assert (Hk : 53 <= ilog2 n d) by lia.
      pose proof (ilog2_lower n d ltac:(lia) Hd ltac:(lia)) as Hlow.
      assert (2 ^ 53 <= 2 ^ ilog2 n d) by (apply Z.pow_le_mono_r; lia).
      assert (2 ^ 52 < 2 ^ 53) by (apply Z.pow_lt_mono_r; lia).
      nia.
Qed.

Lemma value_bounds (x : float) bound :
  0 <= mant x ->
  mant x * up (expo x) <= bound * dn (expo x) ->
  (0 <= value x <= inject_Z bound)%Q.
Proof.
  intros Hm Hle. unfold value, Qle, inject_Z. cbn [Qnum Qden].
  rewrite Z2Pos.id by apply dn_pos.
  pose proof (up_pos (expo x)). split; nia.
Qed.

(** [round(a / t * 100, 2)] for counts [0 <= a <= t], [0 < t]. *)
Lemma percentage_bounds a t :
  0 <= a <= t -> 0 < t ->
  let x := round2 (mul_int (int_truediv a t) 100) in
  0 <= mant x /\ mant x * up (expo x) <= 100 * dn (expo x).
Proof.
  intros Ha Ht. unfold int_truediv.
  assert (H52 : 100 * 100 < 2 ^ 52) by (vm_compute; reflexivity).
  pose proof (RN_nonneg a t ltac:(lia) Ht) as Hm1.
  pose proof (RN_le a t 1 ltac:(lia) Ht ltac:(lia) ltac:(lia)) as Hx1.
  set (x1 := RN a t) in *.
  pose proof (up_pos (expo x1)) as Hu1. pose proof (dn_pos (expo x1)) as Hd1.
  unfold mul_int.
  pose proof (RN_nonneg (mant x1 * up (expo x1) * 100) (dn (expo x1))
                ltac:(nia) Hd1) as Hm2.
  pose proof (RN_le (mant x1 * up (expo x1) * 100) (dn (expo x1)) 100
                ltac:(nia) Hd1 ltac:(lia) ltac:(nia)) as Hx2.
  set (x2 := RN (mant x1 * up (expo x1) * 100) (dn (expo x1))) in *.
  pose proof (up_pos (expo x2)) as Hu2. pose proof (dn_pos (expo x2)) as Hd2.
  unfold round2.
  pose proof (round_half_even_nonneg (mant x2 * up (expo x2) * 100) (dn (expo x2))
                ltac:(nia) Hd2) as Hh0.
  pose proof (round_half_even_le (mant x2 * up (expo x2) * 100) (dn (expo x2))
                (100 * 100) Hd2 ltac:(nia)) as Hh1.
  set (h := round_half_even (mant x2 * up (expo x2) * 100) (dn (expo x2))) in *.
  cbv zeta. split.
  - apply RN_nonneg; lia.
  - apply RN_le; lia.
Qed.

Lemma round_half_even_close n d :
  0 < d -> - d <= 2 * (round_half_even n d * d - n) <= d.
Proof.
  intros Hd. unfold round_half_even.
  pose proof (Z.div_mod n d ltac:(lia)) as Hdm.
  pose proof (Z.mod_pos_bound n d Hd) as Hr.
  destruct (Z.ltb_spec (2 * (n mod d)) d); [nia|].
  destruct (Z.ltb_spec d (2 * (n mod d))); [nia|].
  destruct (Z.even (n / d)); nia.
Qed.

Lemma RN_expo n d j :
  0 <= n -> 0 < d -> 0 <= j -> n < 2 ^ j * d -> expo (RN n d) <= j - 53.
Proof.
  intros Hn Hd Hj Hlt. unfold RN.
  destruct (Z.eqb_spec n 0) as [->|Hn0]; cbn [expo]; [unfold emin; lia|].
  assert (Hk : ilog2 n d < j).
  { destruct (Z_lt_ge_dec (ilog2 n d) j) as [|Hge]; [assumption|exfalso].
    pose proof (ilog2_lower n d ltac:(lia) Hd ltac:(lia)) as Hlow.
    assert (2 ^ j <= 2 ^ ilog2 n d) by (apply Z.pow_le_mono_r; lia).
    nia. }
  unfold emin, prec. lia.
Qed.

(** The rounding error is at most half a unit in the last place. *)
Lemma RN_close n d j :
  0 <= n -> 0 < d -> 0 <= j <= 53 -> n < 2 ^ j * d ->
  up (expo (RN n d)) = 1
  /\ - (d * dn (expo (RN n d)))
     <= 2 ^ (54 - j) * (mant (RN n d) * d - n * dn (expo (RN n d)))
     <= d * dn (expo (RN n d)).
Proof.
  intros Hn Hd Hj Hlt.
  pose proof (RN_expo n d j Hn Hd ltac:(lia) Hlt) as He.
  assert (Hup : up (expo (RN n d)) = 1).
  { unfold up. rewrite Z.max_r by lia. reflexivity. }
  split; [exact Hup|].
  assert (Hdn : 2 ^ (53 - j) <= dn (expo (RN n d))).
  { unfold dn. rewrite Z.max_l by lia. apply Z.pow_le_mono_r; lia. }
  assert (Hp : 2 ^ (54 - j) = 2 * 2 ^ (53 - j)).
  { replace (54 - j) with (Z.succ (53 - j)) by lia. apply Z.pow_succ_r. lia. }
  assert (Hp0 : 0 < 2 ^ (53 - j)) by (apply Z.pow_pos_nonneg; lia).
  revert He Hup Hdn. unfold RN.
  destruct (Z.eqb_spec n 0) as [->|Hn0]; cbn [mant expo]; intros He Hup Hdn.
  - nia.
  - set (e := Z.max emin (ilog2 n d - (prec - 1))) in *.
    rewrite Hup, Z.mul_1_r.
    pose proof (round_half_even_close (n * dn e) d Hd) as Hc.
    set (m := round_half_even (n * dn e) d) in *.
    rewrite Hp. nia.
Qed.

Lemma frac_close P m D n d :
  0 < P -> 0 < D -> 0 < d ->
  - (d * D) <= P * (m * d - n * D) <= d * D ->
  (frac n d - frac 1 P <= frac m D <= frac n d + frac 1 P)%Q.
Proof.
  intros HP HD Hd H. unfold frac, Qle, Qminus, Qplus, Qopp. cbn.
  rewrite !Pos2Z.inj_mul, !Z2Pos.id by lia. split; nia.
Qed.

Lemma frac_scale k n d : 0 < d -> (frac (n * k) d == inject_Z k * frac n d)%Q.
Proof.
  intros Hd. unfold frac, Qeq, Qmult, inject_Z. cbn.
  rewrite Pos.mul_1_l, !Z2Pos.id by lia. ring.
Qed.

Lemma value_frac (x : float) :
  up (expo x) = 1 -> value x = frac (mant x) (dn (expo x)).
Proof. intros Hup. unfold value, frac. rewrite Hup, Z.mul_1_r. reflexivity. Qed.

(** [round(a / t * 100, 2)] is within half a hundredth, and the float
    rounding errors, of the exact percentage. *)
Lemma percentage_close a t :
  0 <= a <= t -> 0 < t ->
  let x := round2 (mul_int (int_truediv a t) 100) in
  (100 * frac a t - (1 # 200) - (1 # 2 ^ 45)
   <= value x
   <= 100 * frac a t + (1 # 200) + (1 # 2 ^ 45))%Q.
Proof.
  intros Ha Ht. unfold int_truediv.
  assert (P7 : 2 ^ 7 = 128) by reflexivity.
  pose proof (RN_le a t 1 ltac:(lia) Ht ltac:(lia) ltac:(lia)) as Hx1.
  pose proof (RN_nonneg a t ltac:(lia) Ht) as Hm1.
  destruct (RN_close a t 1 ltac:(lia) Ht ltac:(lia) ltac:(lia)) as [Hu1 Hc1].
  set (x1 := RN a t) in *.
  pose proof (dn_pos (expo x1)) as Hd1.
  rewrite Hu1, Z.mul_1_r in Hx1.
  unfold mul_int. rewrite Hu1, Z.mul_1_r.
  pose proof (RN_le (mant x1 * 100) (dn (expo x1)) 100
                ltac:(lia) Hd1 ltac:(lia) ltac:(lia)) as Hx2.
  pose proof (RN_nonneg (mant x1 * 100) (dn (expo x1)) ltac:(lia) Hd1) as Hm2.
  destruct (RN_close (mant x1 * 100) (dn (expo x1)) 7
              ltac:(lia) Hd1 ltac:(lia) ltac:(lia)) as [Hu2 Hc2].
  set (x2 := RN (mant x1 * 100) (dn (expo x1))) in *.
  pose proof (dn_pos (expo x2)) as Hd2.
  rewrite Hu2, Z.mul_1_r in Hx2.
  unfold round2. rewrite Hu2, Z.mul_1_r.
  pose proof (round_half_even_close (mant x2 * 100) (dn (expo x2)) Hd2) as Hch.
  pose proof (round_half_even_nonneg (mant x2 * 100) (dn (expo x2))
                ltac:(lia) Hd2) as Hh0.
  pose proof (round_half_even_le (mant x2 * 100) (dn (expo x2)) (100 * 100)
                Hd2 ltac:(lia)) as Hh1.
  set (h := round_half_even (mant x2 * 100) (dn (expo x2))) in *.
  destruct (RN_close h 100 7 ltac:(lia) ltac:(lia) ltac:(lia) ltac:(lia))
    as [Hu3 Hc3].
  set (x3 := RN h 100) in *.
  pose proof (dn_pos (expo x3)) as Hd3.
  cbv zeta. rewrite (value_frac x3 Hu3).
  pose proof (frac_close (2 ^ (54 - 1)) _ _ _ _ eq_refl Hd1 Ht Hc1) as Q1.
  pose proof (frac_close (2 ^ (54 - 7)) _ _ _ _ eq_refl Hd2 Hd1 Hc2) as Q2.
  pose proof (frac_close 2 h 1 (mant x2 * 100) (dn (expo x2))
                ltac:(lia) ltac:(lia) Hd2 ltac:(lia)) as Qh.
  pose proof (frac_close (2 ^ (54 - 7)) (mant x3) (dn (expo x3)) h 100
                eq_refl Hd3 eq_refl Hc3) as Q3.
  rewrite (frac_scale 100 (mant x1) _ Hd1) in Q2.
  rewrite (frac_scale 100 (mant x2) _ Hd2) in Qh.
  assert (Eh : (frac h 1 == 100 * frac h 100)%Q).
  { unfold frac, Qeq, Qmult. cbn. lia. }
  rewrite Eh in Qh.
  change (frac 1 (2 ^ (54 - 1))) with (1 # 9007199254740992)%Q in Q1.
  change (frac 1 (2 ^ (54 - 7))) with (1 # 140737488355328)%Q in Q2, Q3.
  change (frac 1 2) with (1 # 2)%Q in Qh.
  change (inject_Z 100) with 100%Q in *.
  change (1 # 2 ^ 45)%Q with (1 # 35184372088832)%Q.
  generalize dependent (frac (mant x3) (dn (expo x3))).
  generalize dependent (frac h 100).
  generalize dependent (frac (mant x2) (dn (expo x2))).
  generalize dependent (frac (mant x1) (dn (expo x1))).
  generalize dependent (frac a t).
  intros q v1 Q1 v2 Q2 hh Qh v3 Q3. lra.
Qed.

Lemma round2_hundredths a t :
  round2 (mul_int (int_truediv a t) 100) = RN (hundredths a t) 100.
Proof. reflexivity. Qed.

Lemma hundredths_range a t :
  0 <= a <= t -> 0 < t -> 0 <= hundredths a t <= 100 * 100.
Proof.
  intros Ha Ht. unfold hundredths, int_truediv. cbv zeta.
  pose proof (RN_nonneg a t ltac:(lia) Ht) as Hm1.
  pose proof (RN_le a t 1 ltac:(lia) Ht ltac:(lia) ltac:(lia)) as Hx1.
  set (x1 := RN a t) in *.
  pose proof (up_pos (expo x1)) as Hu1. pose proof (dn_pos (expo x1)) as Hd1.
  unfold mul_int.
  pose proof (RN_nonneg (mant x1 * up (expo x1) * 100) (dn (expo x1))
                ltac:(nia) Hd1) as Hm2.
  pose proof (RN_le (mant x1 * up (expo x1) * 100) (dn (expo x1)) 100
                ltac:(nia) Hd1 ltac:(lia) ltac:(nia)) as Hx2.
  set (x2 := RN (mant x1 * up (expo x1) * 100) (dn (expo x1))) in *.
  pose proof (up_pos (expo x2)) as Hu2. pose proof (dn_pos (expo x2)) as Hd2.
  split.
  - apply round_half_even_nonneg; [nia|exact Hd2].
  - apply round_half_even_le; [exact Hd2|nia].
Qed.

(** The hundredths are within a half, and the float rounding errors, of
    the exact percentage in hundredths. *)
Lemma hundredths_close a t :
  0 <= a <= t -> 0 < t ->
  (10000 * frac a t - (1 # 2) - (1 # 2 ^ 38)
   <= inject_Z (hundredths a t)
   <= 10000 * frac a t + (1 # 2) + (1 # 2 ^ 38))%Q.
Proof.
  intros Ha Ht. unfold hundredths, int_truediv. cbv zeta.
  pose proof (RN_le a t 1 ltac:(lia) Ht ltac:(lia) ltac:(lia)) as Hx1.
  pose proof (RN_nonneg a t ltac:(lia) Ht) as Hm1.
  destruct (RN_close a t 1 ltac:(lia) Ht ltac:(lia) ltac:(lia)) as [Hu1 Hc1].
  set (x1 := RN a t) in *.
  pose proof (dn_pos (expo x1)) as Hd1.
  rewrite Hu1, Z.mul_1_r in Hx1.
  unfold mul_int. rewrite Hu1, Z.mul_1_r.
  assert (P7 : 2 ^ 7 = 128) by reflexivity.
  destruct (RN_close (mant x1 * 100) (dn (expo x1)) 7
              ltac:(lia) Hd1 ltac:(lia) ltac:(lia)) as [Hu2 Hc2].
  set (x2 := RN (mant x1 * 100) (dn (expo x1))) in *.
  pose proof (dn_pos (expo x2)) as Hd2.
  rewrite Hu2, Z.mul_1_r.
  pose proof (round_half_even_close (mant x2 * 100) (dn (expo x2)) Hd2) as Hch.
  set (h := round_half_even (mant x2 * 100) (dn (expo x2))) in *.
  pose proof (frac_close (2 ^ (54 - 1)) _ _ _ _ eq_refl Hd1 Ht Hc1) as Q1.
  pose proof (frac_close (2 ^ (54 - 7)) _ _ _ _ eq_refl Hd2 Hd1 Hc2) as Q2.
  pose proof (frac_close 2 h 1 (mant x2 * 100) (dn (expo x2))
                ltac:(lia) ltac:(lia) Hd2 ltac:(lia)) as Qh.
  rewrite (frac_scale 100 (mant x1) _ Hd1) in Q2.
  rewrite (frac_scale 100 (mant x2) _ Hd2) in Qh.
  change (frac h 1) with (inject_Z h) in Qh.
  change (frac 1 (2 ^ (54 - 1))) with (1 # 9007199254740992)%Q in Q1.
  change (frac 1 (2 ^ (54 - 7))) with (1 # 140737488355328)%Q in Q2.
  change (frac 1 2) with (1 # 2)%Q in Qh.
  change (inject_Z 100) with 100%Q in *.
  change (1 # 2 ^ 38)%Q with (1 # 274877906944)%Q.
  generalize dependent (inject_Z h).
  generalize dependent (frac (mant x2) (dn (expo x2))).
  generalize dependent (frac (mant x1) (dn (expo x1))).
  generalize dependent (frac a t).
  intros q v1 Q1 v2 Q2 hh Qh. lra.
Qed.

(** For a group of fewer than [2^37] members the hundredths are a
    nearest whole number to the exact percentage in hundredths: at most
    a half away. *)
Lemma hundredths_nearest a t :
  0 <= a <= t -> 0 < t -> t < 2 ^ 37 ->
  - t <= 2 * (hundredths a t * t - 10000 * a) <= t.
Proof.
  intros Ha Ht Hsmall.
  destruct (hundredths_close a t Ha Ht) as [Hlo Hhi].
  set (h := hundredths a t) in *. clearbody h.
  change (2 ^ 37) with 137438953472 in Hsmall.
  change (2 ^ 38)%positive with 274877906944%positive in Hlo, Hhi.
  unfold Qminus in Hlo.
  unfold frac, Qle, Qplus, Qmult, Qopp, inject_Z in Hlo, Hhi.
  cbn [Qnum Qden] in Hlo, Hhi.
  repeat rewrite Pos2Z.inj_mul in Hlo. repeat rewrite Pos2Z.inj_mul in Hhi.
  rewrite ?Z2Pos.id in Hlo by lia. rewrite ?Z2Pos.id in Hhi by lia.
  split; lia.
Qed.

(** A whole number strictly less than a half away is the only nearest. *)
Lemma nearest_unique h h' a t :
  0 < t ->
  - t <= 2 * (h * t - 10000 * a) <= t ->
  2 * Z.abs (h' * t - 10000 * a) < t ->
  h = h'.
Proof. intros Ht Hh Hh'. nia. Qed.

(** The model computes what binary64 hardware computes: for all counts
    [a <= t + 1], [1 <= t <= 60], the quotient [a / t], its product with
    100 and the float nearest to the rounded hundredths [h / 100] have
    the values the primitive floats give. *)
Example model_agrees_with_binary64 : forallb agrees_on (count_pairs 60) = true.
Proof. vm_compute. reflexivity. Qed.
End FloatFacts.

(** ** GET /team-insights *)

Lemma sumZ_app l l' : sumZ (l ++ l') = sumZ l + sumZ l'.
Proof. unfold sumZ. induction l; simpl; lia. Qed.

Lemma len_app {A} (l l' : list A) : len (l ++ l') = len l + len l'.
Proof. unfold len. rewrite length_app. lia. Qed.

Lemma concluidos_count ps : concluidos ps = len (List.filter concluido ps).
Proof.
  unfold concluidos.
  assert (H : forall acc,
             fold_left (fun acc p => if concluido p then acc + 1 else acc) ps acc
             = acc + len (List.filter concluido ps)).
  { induction ps as [|p ps IH]; intros acc; simpl; [unfold len; simpl; lia|].
    rewrite IH. destruct (concluido p); [|reflexivity].
    unfold len. simpl length. lia. }
  rewrite H. lia.
Qed.

Lemma team_data_snoc people u :
  team_data_of (people ++ [u]) = team_step (team_data_of people) u.
Proof. unfold team_data_of. rewrite fold_left_app. reflexivity. Qed.

Lemma members_snoc t people u :
  members t (people ++ [u])
  = (members t people ++ if decide (team_of u = t) then [u] else [])%list.
Proof.
  unfold members. rewrite List.filter_app. simpl.
  destruct (decide (team_of u = t)).
  - rewrite bool_decide_eq_true_2 by assumption. reflexivity.
  - rewrite bool_decide_eq_false_2 by assumption. reflexivity.
Qed.

Lemma group_info_empty t people :
  members t people = [] -> group_info t people = team_info_default.
Proof. unfold group_info. intros ->. reflexivity. Qed.

Lemma group_info_snoc_same people u :
  group_info (team_of u) (people ++ [u])
  = let info := group_info (team_of u) people in
    {| total_membros := total_membros info + 1;
       lideres := if lider (equipe u) then lideres info + 1 else lideres info;
       projetos_concluidos :=
         projetos_concluidos info + concluidos (projetos (equipe u));
       ativos := if ativo u then ativos info + 1 else ativos info |}.
Proof.
  unfold group_info. rewrite members_snoc, decide_True by reflexivity.
  cbv zeta. cbn [total_membros lideres projetos_concluidos ativos].
  rewrite !List.filter_app, map_app, sumZ_app, !len_app, concluidos_count.
  simpl. destruct (lider (equipe u)), (ativo u); f_equal; unfold len; simpl; lia.
Qed.

Lemma team_data_get t people :
  Dict.get t (team_data_of people)
  = if decide (members t people = []) then None
    else Some (group_info t people).
Proof.
  induction people as [|u people IH] using rev_ind; [reflexivity|].
  rewrite team_data_snoc. unfold team_step. rewrite get_update.
  fold (team_of u).
  destruct (decide (t = team_of u)) as [->|Hne].
  - rewrite decide_False.
    2:{ rewrite members_snoc, decide_True by reflexivity.
        intros H. apply app_eq_nil in H as [_ H]. discriminate. }
    f_equal. rewrite group_info_snoc_same. cbv zeta.
    assert (Hd : default team_info_default (Dict.get (team_of u) (team_data_of people))
                 = group_info (team_of u) people).
    { rewrite IH. destruct (decide (members (team_of u) people = [])) as [He|];
        [symmetry; apply group_info_empty, He|reflexivity]. }
    rewrite Hd. reflexivity.
  - assert (Hm : members t (people ++ [u]) = members t people).
    { rewrite members_snoc.
      destruct (decide (team_of u = t)); [congruence|apply app_nil_r]. }
    rewrite IH. unfold group_info. rewrite Hm. reflexivity.
Qed.

Lemma team_data_keys people :
  Dict.keys (team_data_of people) = Dict.keys (Counter (map team_of people)).
Proof.
  induction people as [|u people IH] using rev_ind; [reflexivity|].
  rewrite team_data_snoc, map_app. simpl map. rewrite Counter_snoc.
  unfold team_step. rewrite !keys_update, IH. reflexivity.
Qed.

Lemma team_data_In t info people :
  In (t, info) (team_data_of people)
  <-> info = group_info t people /\ members t people <> [].
Proof.
  split.
  - intros Hin. apply In_get_Some in Hin.
    2:{ rewrite team_data_keys. apply Counter_keys_NoDup. }
    rewrite team_data_get in Hin.
    destruct (decide (members t people = [])); [discriminate|].
    inversion Hin. auto.
  - intros [-> Hne]. apply get_Some_In. rewrite team_data_get.
    rewrite decide_False by assumption. reflexivity.
Qed.

Lemma members_nonempty t people :
  members t people <> [] <-> exists usuario, In usuario people /\ team_of usuario = t.
Proof.
  unfold members. split.
  - intros Hne. destruct (List.filter _ people) as [|u l] eqn:Hf; [congruence|].
    assert (Hin : In u (List.filter (fun usuario => bool_decide (team_of usuario = t)) people))
      by (rewrite Hf; simpl; auto).
    apply filter_In in Hin as [Hin Ht]. apply bool_decide_eq_true_1 in Ht. eauto.
  - intros (u & Hin & Ht) He.
    assert (Hin' : In u (List.filter (fun usuario => bool_decide (team_of usuario = t)) people)).
    { apply filter_In. split; [exact Hin|]. apply bool_decide_eq_true_2, Ht. }
    rewrite He in Hin'. destruct Hin'.
Qed.

Lemma porcentagem_zero_total info :
  total_membros info = 0 -> porcentagem info = PyInt 0.
Proof. unfold porcentagem. intros ->. reflexivity. Qed.

Lemma filter_len_le {A} (f : A -> bool) l : 0 <= len (List.filter f l) <= len l.
Proof.
  pose proof (len_sublist _ _ (filter_sublist f l)). unfold len in *. lia.
Qed.

(** The percentage of a non-empty group is a float between 0 and 100,
    close to the exact percentage. *)
Lemma porcentagem_group t people :
  members t people <> [] ->
  let a := len (List.filter ativo (members t people)) in
  let n := len (members t people) in
  porcentagem (group_info t people)
  = PyFloat (Float.round2 (Float.mul_int (Float.int_truediv a n) 100))
  /\ (0 <= number_value (porcentagem (group_info t people)) <= 100)%Q
  /\ (100 * frac a n - percentage_tolerance
      <= number_value (porcentagem (group_info t people))
      <= 100 * frac a n + percentage_tolerance)%Q.
Proof.
  intros Hne a n. unfold porcentagem, group_info.
  cbn [total_membros ativos]. fold a n.
  assert (Hpos : 0 < n).
  { unfold n, len. destruct (members t people); [congruence|]. simpl length. lia. }
  destruct (Z.ltb_spec 0 n) as [_|]; [|lia].
  split; [reflexivity|]. cbn [number_value].
  pose proof (filter_len_le ativo (members t people)) as Hact. fold a n in Hact.
  destruct (FloatFacts.percentage_bounds _ _ Hact Hpos) as [Hm Hle].
  split; [apply (FloatFacts.value_bounds _ 100 Hm Hle)|].
  pose proof (FloatFacts.percentage_close _ _ Hact Hpos) as Hclose.
  cbv zeta in Hclose. unfold percentage_tolerance.
  destruct Hclose as [Hlo Hhi]. split; lra.
Qed.

(** The hundredths [round(x, 2)] settles on for a non-empty group are a
    nearest whole number to the exact percentage in hundredths. *)
Lemma hundredths_group t people :
  members t people <> [] ->
  let a := len (List.filter ativo (members t people)) in
  let n := len (members t people) in
  porcentagem (group_info t people) = PyFloat (Float.RN (hundredths a n) 100)
  /\ 0 <= hundredths a n <= 10000
  /\ (10000 * frac a n - (1 # 2) - (1 # 2 ^ 38)
      <= inject_Z (hundredths a n)
      <= 10000 * frac a n + (1 # 2) + (1 # 2 ^ 38))%Q
  /\ (n < 2 ^ 37 -> - n <= 2 * (hundredths a n * n - 10000 * a) <= n)
  /\ (n < 2 ^ 37 ->
      forall h', 2 * Z.abs (h' * n - 10000 * a) < n -> hundredths a n = h').
Proof.
  intros Hne a n.
  destruct (porcentagem_group t people Hne) as (Hpct & _ & _). fold a n in Hpct.
  assert (Hpos : 0 < n).
  { unfold n, len. destruct (members t people); [congruence|]. simpl length. lia. }
  pose proof (filter_len_le ativo (members t people)) as Hact. fold a n in Hact.
  split; [rewrite Hpct, FloatFacts.round2_hundredths; reflexivity|].
  split; [apply (FloatFacts.hundredths_range a n Hact Hpos)|].
  split; [apply (FloatFacts.hundredths_close a n Hact Hpos)|].
  split.
  - intros Hsmall. apply (FloatFacts.hundredths_nearest a n Hact Hpos Hsmall).
  - intros Hsmall h' Hh'.
    apply (FloatFacts.nearest_unique _ _ a n Hpos); [|exact Hh'].
    apply (FloatFacts.hundredths_nearest a n Hact Hpos Hsmall).
Qed.

(** C6, as stated, fails: with 23 active members of 160 the exact
    percentage is 14.375, which rounds to 14.38 by either rule for a
    tie, and the answer carries the float nearest to 14.37, a value
    below the exact percentage. *)
Lemma team_percentage_not_the_rounded_exact :
  team_insights (<[people_key := squad 23 137]> cache_init)
  = Ok {| total := 1;
          body_data :=
            [ {| team_name := "Frontend"; ins_total_membros := 160;
                 ins_lideres := 0; ins_projetos_concluidos := 160;
                 percentagem_ativos := PyFloat (Float.RN 1437 100) |} ] |}
  /\ len (List.filter ativo (members "Frontend" (squad 23 137))) = 23
  /\ len (members "Frontend" (squad 23 137)) = 160
  /\ exact_hundredths_half_even 23 160 = 1438
  /\ exact_hundredths_half_up 23 160 = 1438
  /\ Float.RN 1437 100 <> Float.RN 1438 100
  /\ ~ (Float.value (Float.RN 1437 100) == 1438 # 100)%Q
  /\ (Float.value (Float.RN 1437 100) < 100 * frac 23 160)%Q.
Proof.
  split; [unfold team_insights; rewrite lookup_insert_eq; vm_compute; reflexivity|].
  repeat split; try (vm_compute; reflexivity).
  - vm_compute. discriminate.
  - vm_compute. discriminate.
Qed.

(** C6 (amended): on a snapshot, every entry of the GET /team-insights
    answer describes a team with at least one member: [total_membros] is
    the number of records of that team, [lideres] the number of them
    whose team record is flagged leader, [projetos_concluidos] the
    completed projects summed over their team records.
    [percentagem_ativos] is the float [round(ativos / total_membros *
    100, 2)] on the number [a] of active members and the number [n] of
    members: the float nearest to [h / 100] for a whole number [h] of
    hundredths between 0 and 10000 that is within a half, plus [2^-38],
    of the exact [10000 * a / n]; for a group of fewer than [2^37]
    members [h] is a nearest whole number to it, and the nearest one
    whenever the exact percentage is not halfway between two hundredths.
    The value lies between 0 and 100.  The conditional of the code
    yields 0 for a member count of 0, which no entry has.  The teams
    listed are those of the snapshot, each once, in first-met order, and
    [total] is their number. *)
Theorem team_insights_groups cache people :
  cache !! people_key = Some people ->
  exists body,
    team_insights cache = Ok body
    /\ (forall i, In i (body_data body) ->
          let ms := members (team_name i) people in
          let a := len (List.filter ativo ms) in
          let n := len ms in
          1 <= ins_total_membros i
          /\ ins_total_membros i = n
          /\ ins_lideres i
             = len (List.filter (fun usuario => lider (equipe usuario)) ms)
          /\ ins_projetos_concluidos i
             = sumZ (map (fun usuario =>
                            len (List.filter concluido (projetos (equipe usuario))))
                       ms)
          /\ percentagem_ativos i
             = PyFloat (Float.round2 (Float.mul_int (Float.int_truediv a n) 100))
          /\ percentagem_ativos i = PyFloat (Float.RN (hundredths a n) 100)
          /\ 0 <= hundredths a n <= 10000
          /\ (10000 * frac a n - (1 # 2) - (1 # 2 ^ 38)
              <= inject_Z (hundredths a n)
              <= 10000 * frac a n + (1 # 2) + (1 # 2 ^ 38))%Q
          /\ (n < 2 ^ 37 -> - n <= 2 * (hundredths a n * n - 10000 * a) <= n)
          /\ (n < 2 ^ 37 ->
              forall h', 2 * Z.abs (h' * n - 10000 * a) < n -> hundredths a n = h')
          /\ (0 <= number_value (percentagem_ativos i) <= 100)%Q
          /\ (100 * frac a n - percentage_tolerance
              <= number_value (percentagem_ativos i)
              <= 100 * frac a n + percentage_tolerance)%Q)
    /\ (forall info, total_membros info = 0 -> porcentagem info = PyInt 0)
    /\ (forall t, In t (map team_name (body_data body))
          <-> exists usuario, In usuario people /\ t_nome (equipe usuario) = t)
    /\ NoDup (map team_name (body_data body))
    /\ StronglySorted (seen_before (map team_of people))
         (map team_name (body_data body))
    /\ total body = len (body_data body).
Proof.
  intros Hc. unfold team_insights. rewrite Hc.
  eexists. split; [reflexivity|]. cbn [body_data total].
  assert (Hnames : map team_name (map insight_of (team_data_of people))
                   = Dict.keys (Counter (map team_of people))).
  { rewrite <- team_data_keys. unfold Dict.keys. rewrite map_map. reflexivity. }
  split; [|split; [|split; [|split; [|split; [|reflexivity]]]]].
  - intros i Hi. apply in_map_iff in Hi as ([t info] & <- & Hin).
    apply team_data_In in Hin as [-> Hne].
    cbn [insight_of team_name ins_total_membros ins_lideres
           ins_projetos_concluidos percentagem_ativos fst snd].
    destruct (porcentagem_group t people Hne) as (Hpct & Hrange & Hclose).
    destruct (hundredths_group t people Hne) as (Hh & Hhr & Hhq & Hhn & Hhu).
    cbv zeta in Hpct, Hclose, Hh, Hhr, Hhq, Hhn, Hhu.
    assert (Hpos : 1 <= len (members t people)).
    { unfold len. destruct (members t people); [congruence|]. simpl length. lia. }
    cbv zeta. unfold group_info at 1 2 3 4.
    cbn [total_membros lideres projetos_concluidos].
    split; [exact Hpos|]. do 3 (split; [reflexivity|]).
    split; [exact Hpct|]. split; [exact Hh|]. split; [exact Hhr|].
    split; [exact Hhq|]. split; [exact Hhn|]. split; [exact Hhu|].
    split; [exact Hrange|exact Hclose].
  - apply porcentagem_zero_total.
  - intros t. rewrite Hnames, Counter_keys_In, in_map_iff. unfold team_of.
    split; intros (u & H1 & H2); exists u; auto.
  - rewrite Hnames. apply Counter_keys_NoDup.
  - rewrite Hnames. apply Counter_keys_order.
Qed.

Lemma team_insights_groups_witness :
  exists body,
    team_insights sample_cache = Ok body
    /\ (forall i, In i (body_data body) ->
          let ms := members (team_name i) sample_people in
          let a := len (List.filter ativo ms) in
          let n := len ms in
          1 <= ins_total_membros i
          /\ ins_total_membros i = n
          /\ ins_lideres i
             = len (List.filter (fun usuario => lider (equipe usuario)) ms)
          /\ ins_projetos_concluidos i
             = sumZ (map (fun usuario =>
                            len (List.filter concluido (projetos (equipe usuario))))
                       ms)
          /\ percentagem_ativos i
             = PyFloat (Float.round2 (Float.mul_int (Float.int_truediv a n) 100))
          /\ percentagem_ativos i = PyFloat (Float.RN (hundredths a n) 100)
          /\ 0 <= hundredths a n <= 10000
          /\ (10000 * frac a n - (1 # 2) - (1 # 2 ^ 38)
              <= inject_Z (hundredths a n)
              <= 10000 * frac a n + (1 # 2) + (1 # 2 ^ 38))%Q
          /\ (n < 2 ^ 37 -> - n <= 2 * (hundredths a n * n - 10000 * a) <= n)
          /\ (n < 2 ^ 37 ->
              forall h', 2 * Z.abs (h' * n - 10000 * a) < n -> hundredths a n = h')
          /\ (0 <= number_value (percentagem_ativos i) <= 100)%Q
          /\ (100 * frac a n - percentage_tolerance
              <= number_value (percentagem_ativos i)
              <= 100 * frac a n + percentage_tolerance)%Q)
    /\ (forall info, total_membros info = 0 -> porcentagem info = PyInt 0)
    /\ (forall t, In t (map team_name (body_data body))
          <-> exists usuario, In usuario sample_people /\ t_nome (equipe usuario) = t)
    /\ NoDup (map team_name (body_data body))
    /\ StronglySorted (seen_before (map team_of sample_people))
         (map team_name (body_data body))
    /\ total body = len (body_data body).
Proof. apply (team_insights_groups sample_cache). apply sample_cache_people. Defined.

(** On the sample: Backend has three members, one of them active, which
    gives [round(1 / 3 * 100, 2)], the float nearest to 33.33; Frontend
    has one active member, which gives 100.0. *)
Example team_insights_sample :
  team_insights sample_cache
  = Ok {| total := 2;
          body_data :=
            [ {| team_name := "Backend"; ins_total_membros := 3; ins_lideres := 3;
                 ins_projetos_concluidos := 3;
                 percentagem_ativos :=
                   PyFloat {| Float.mant := 4690780486883082; Float.expo := -47 |} |};
              {| team_name := "Frontend"; ins_total_membros := 1; ins_lideres := 0;
                 ins_projetos_concluidos := 1;
                 percentagem_ativos :=
                   PyFloat {| Float.mant := 7036874417766400; Float.expo := -46 |} |} ] |}.
Proof. unfold team_insights. rewrite sample_cache_people. vm_compute. reflexivity. Qed.

Lemma active_users_per_day_counts_witness :
  exists body,
    active_users_per_day sample_cache (Some 2) = Ok body
    /\ (forall d c, In (d, c) (body_data body)
          <-> c = occurrences d (login_dates sample_people) /\ 0 < c
              /\ (forall m, Some 2 = Some m -> m <= c))
    /\ NoDup (Dict.keys (body_data body))
    /\ StronglySorted
         (fun x y => seen_before (login_dates sample_people) x.1 y.1) (body_data body)
    /\ total body = len (body_data body).
Proof.
  apply (active_users_per_day_counts sample_cache sample_people (Some 2)).
  - apply sample_cache_people.
  - reflexivity.
Defined.

Lemma min_filter_monotone_witness :
  exists b1 b2 b0,
    active_users_per_day sample_cache (Some 1) = Ok b1
    /\ active_users_per_day sample_cache (Some 2) = Ok b2
    /\ active_users_per_day sample_cache None = Ok b0
    /\ total b2 <= total b1
    /\ sublist (body_data b2) (body_data b1)
    /\ (forall d, In d (Dict.keys (body_data b0))
          <-> exists usuario log,
                In usuario sample_people /\ In log (logs usuario)
                /\ acao log = "login" /\ data log = d)
    /\ (forall d c, In (d, c) (body_data b0) -> 1 <= c).
Proof.
  apply (min_filter_monotone sample_cache sample_people 1 2).
  - apply sample_cache_people.
  - lia.
  - lia.
Defined.

Example active_users_per_day_sample :
  active_users_per_day sample_cache None
  = Ok {| total := 2; body_data := [(d1, 1); (d2, 3)] |}
  /\ active_users_per_day sample_cache (Some 2)
     = Ok {| total := 1; body_data := [(d2, 3)] |}
  /\ active_users_per_day sample_cache (Some 0)
     = Ok {| total := 2; body_data := [(d1, 1); (d2, 3)] |}.
Proof.
  unfold active_users_per_day, active_users_per_day_body.
  rewrite sample_cache_people. repeat split.
Qed.

(** The example of the specification: scores 950, 800, 120 with
    [ativo] true, true, false. *)
Example get_users_950_800_120 :
  get_users (<[people_key := [ana; bob; caio]]> cache_init)
  = Ok {| total := 1; body_data := [ana] |}.
Proof. unfold get_users. rewrite lookup_insert_eq. reflexivity. Qed.

(** Run against the application itself, the self-check reports 404
    before any ingestion and 200 afterwards. *)
Example evaluation_on_app :
  (evaluation (app_get cache_init uneven_client)).1 = Some 404
  /\ (evaluation (app_get sample_cache uneven_client)).1 = Some 200
  /\ Dict.keys (evaluation (app_get sample_cache uneven_client)).2 = endpoints.
Proof.
  rewrite !evaluation_last_failure, !recorded_on_fixed_cache, sample_cache_people.
  repeat split.
Qed.

(** * Further properties *)

(** ** The self-check: per-endpoint results *)

(** The flags of a test result agree with each other: [status_ok] holds
    exactly for status 200; an error text is recorded exactly when no
    status is, which happens exactly when the request raised, and then
    the result is neither ok nor a valid response. *)
Theorem test_endpoint_flags client url :
  let r := test_endpoint client url in
  (status_ok r = true <-> res_status_code r = Some 200)
  /\ (error r = None <-> res_status_code r <> None)
  /\ (res_status_code r = None -> status_ok r = false /\ valid_response r = false)
  /\ (res_status_code r = None <-> exists e, client url = Raised e).
Proof.
  unfold test_endpoint. destruct (client url) as [status json_valid|e]; cbn.
  - split; [|split; [|split]].
    + rewrite Z.eqb_eq. split; congruence.
    + split; congruence.
    + discriminate.
    + split; [discriminate|]. intros [e He]. discriminate.
  - split; [|split; [|split]].
    + split; discriminate.
    + split; [discriminate|]. intros H. destruct H. reflexivity.
    + auto.
    + split; eauto.
Qed.

Lemma string_app_assoc (a b c : string) : (a ++ b) ++ c = a ++ (b ++ c).
Proof.
  induction a as [|x a IH]; [reflexivity|].
  rewrite !string_app_cons, IH. reflexivity.
Qed.

Lemma string_app_nil_r (a : string) : a ++ "" = a.
Proof.
  induction a as [|x a IH]; [reflexivity|].
  rewrite string_app_cons, IH. reflexivity.
Qed.

Lemma last_segment_from_app acc s t :
  last_segment_from acc (s ++ t) = last_segment_from (last_segment_from acc s) t.
Proof.
  revert acc. induction s as [|c s IH]; intros acc; [reflexivity|].
  rewrite string_app_cons. cbn [last_segment_from].
  destruct (Ascii.eqb c slash); apply IH.
Qed.

Lemma last_segment_from_no_slash acc name :
  has_slash name = false -> last_segment_from acc name = acc ++ name.
Proof.
  revert acc. induction name as [|c name IH]; intros acc; cbn [has_slash last_segment_from].
  - intros _. symmetry. apply string_app_nil_r.
  - intros H. apply orb_false_iff in H as [Hc Hn]. rewrite Hc.
    rewrite (IH _ Hn), string_app_assoc. reflexivity.
Qed.

(** [url.split("/")[-1]] gives back the name after the last slash. *)
Lemma last_segment_of_path prefix name :
  has_slash name = false ->
  last_segment (prefix ++ String slash name) = name.
Proof.
  intros Hn. unfold last_segment. rewrite last_segment_from_app.
  cbn [last_segment_from]. rewrite Ascii.eqb_refl.
  apply (last_segment_from_no_slash "" name Hn).
Qed.

Lemma result_key_of_endpoint endpoint :
  one_segment endpoint ->
  "/" ++ last_segment (base_url ++ endpoint) = endpoint.
Proof.
  intros (name & -> & Hn). rewrite last_segment_of_path by exact Hn. reflexivity.
Qed.

Lemma dict_set_new {K V} `{EqDecision K} (k : K) (v : V) (d : Dict.t K V) :
  ~ In k (Dict.keys d) -> Dict.set k v d = (d ++ [(k, v)])%list.
Proof.
  unfold Dict.set, Dict.keys. induction d as [|[k0 v0] d IH]; simpl; intros Hnin.
  - reflexivity.
  - rewrite decide_False by (intros ->; tauto). rewrite IH by tauto. reflexivity.
Qed.

Lemma evaluation_over_snoc client eps e :
  evaluation_over client (eps ++ [e])
  = evaluation_step client (evaluation_over client eps) e.
Proof. unfold evaluation_over. rewrite fold_left_app. reflexivity. Qed.

Lemma evaluation_over_results client eps :
  Forall one_segment eps -> NoDup eps ->
  (evaluation_over client eps).2
  = map (fun e => (e, test_endpoint client (base_url ++ e))) eps.
Proof.
  induction eps as [|e eps IH] using rev_ind; intros Hseg Hnd; [reflexivity|].
  apply Forall_app in Hseg as [Hseg He]. apply List.Forall_inv in He.
  apply NoDup_app in Hnd as (Hnd & Hfresh & _).
  rewrite evaluation_over_snoc. unfold evaluation_step. cbn [snd].
  rewrite (result_key_of_endpoint e He), (IH Hseg Hnd), map_app. simpl.
  apply dict_set_new. unfold Dict.keys. rewrite map_map. simpl. rewrite map_id.
  intros Hin. apply (Hfresh e); [apply list_elem_of_In, Hin|apply list_elem_of_here].
Qed.

Lemma endpoints_one_segment : Forall one_segment endpoints.
Proof.
  unfold endpoints.
  repeat (constructor; [eexists; split; [reflexivity|reflexivity]|]).
  constructor.
Qed.

Lemma endpoints_NoDup : NoDup endpoints.
Proof. apply (bool_decide_unpack (NoDup endpoints)). vm_compute. exact I. Qed.

Lemma evaluation_results client :
  (evaluation client).2
  = map (fun e => (e, test_endpoint client (base_url ++ e))) endpoints.
Proof. apply evaluation_over_results; [apply endpoints_one_segment|apply endpoints_NoDup]. Qed.

Lemma fold_keep_ok_iff statuses :
  fold_left keep_or_replace statuses (Some 200) = Some 200
  <-> Forall (fun s => s = Some 200) statuses.
Proof.
  induction statuses as [|s l IH] using rev_ind.
  - split; [constructor|reflexivity].
  - rewrite fold_left_app, Forall_app. simpl. unfold keep_or_replace at 1.
    destruct (decide (s = Some 200)) as [->|Hne].
    + rewrite IH. split; [intros H; split; [exact H|repeat constructor]|tauto].
    + split; [congruence|]. intros [_ H]. apply List.Forall_inv in H. congruence.
Qed.

(** Whatever the client does, the report has one entry per endpoint, in
    list order and under the endpoint's own path (the last segment of
    the URL with the slash put back), and the entry is the result of
    testing that endpoint: a request that raises stops nothing.  This
    holds for any list of distinct one-segment paths. *)
Theorem evaluation_over_entries client eps :
  Forall one_segment eps -> NoDup eps ->
  Dict.keys (evaluation_over client eps).2 = eps
  /\ (forall e, In e eps ->
        Dict.get e (evaluation_over client eps).2
        = Some (test_endpoint client (base_url ++ e))).
Proof.
  intros Hseg Hnd. rewrite (evaluation_over_results client eps Hseg Hnd).
  assert (Hkeys : Dict.keys (map (fun e => (e, test_endpoint client (base_url ++ e))) eps)
                  = eps).
  { unfold Dict.keys. rewrite map_map. simpl. apply map_id. }
  split; [exact Hkeys|].
  intros e He. apply In_get_Some.
  - rewrite Hkeys. exact Hnd.
  - apply in_map_iff. exists e. auto.
Qed.

Lemma evaluation_over_entries_witness :
  Dict.keys (evaluation uneven_client).2 = endpoints
  /\ Dict.get "/active-users-per-day" (evaluation uneven_client).2
     = Some (test_endpoint uneven_client (base_url ++ "/active-users-per-day")).
Proof.
  destruct (evaluation_over_entries uneven_client endpoints
              endpoints_one_segment endpoints_NoDup) as [Hk Hg].
  split; [exact Hk|]. apply Hg. unfold endpoints. simpl. auto.
Defined.

(** The overall status is 200 exactly when every entry of the report is
    flagged [status_ok]. *)
Theorem evaluation_ok_iff_all_ok client :
  (evaluation client).1 = Some 200
  <-> Forall (fun entry => status_ok entry.2 = true) (evaluation client).2.
Proof.
  rewrite evaluation_results.
  unfold evaluation, evaluation_over. rewrite evaluation_over_fold. cbn [fst].
  rewrite fold_keep_ok_iff. unfold recorded.
  rewrite !Forall_forall. split.
  - intros H [e r] Hin. apply list_elem_of_In, in_map_iff in Hin as (e' & [= <- <-] & He').
    cbn [snd]. unfold test_endpoint.
    assert (Hs : res_status_code (test_endpoint client (base_url ++ e')) = Some 200).
    { apply H, list_elem_of_In, in_map_iff. eauto. }
    unfold test_endpoint in Hs.
    destruct (client (base_url ++ e')) as [status ok|err]; cbn in *; [|discriminate].
    inversion Hs. reflexivity.
  - intros H s Hin. apply list_elem_of_In, in_map_iff in Hin as (e & <- & He).
    assert (Hok : status_ok (test_endpoint client (base_url ++ e)) = true).
    { apply (H (e, test_endpoint client (base_url ++ e))).
      apply list_elem_of_In, in_map_iff. eauto. }
    unfold test_endpoint in *.
    destruct (client (base_url ++ e)) as [status ok|err]; cbn in *; [|discriminate].
    apply Z.eqb_eq in Hok. congruence.
Qed.

(** Run against the application itself on an unchanged cache, the
    self-check reports 200 when a snapshot exists and 404 when none
    does; every entry carries that same status, parses as JSON and
    records no error. *)
Theorem evaluation_on_application (cache : gmap string (list Person))
    (other : string -> Outcome) :
  let overall :=
    match cache !! people_key with Some _ => Some 200 | None => Some 404 end in
  (evaluation (app_get cache other)).1 = overall
  /\ Dict.keys (evaluation (app_get cache other)).2 = endpoints
  /\ (forall e r, In (e, r) (evaluation (app_get cache other)).2 ->
        res_status_code r = overall
        /\ status_ok r = bool_decide (is_Some (cache !! people_key))
        /\ valid_response r = true /\ error r = None).
Proof.
  cbv zeta. rewrite evaluation_last_failure, recorded_on_fixed_cache, evaluation_results.
  split; [destruct (cache !! people_key); reflexivity|].
  split; [unfold Dict.keys; rewrite map_map; apply map_id|].
  intros e r Hin. apply in_map_iff in Hin as (e' & [= <- <-] & He').
  unfold endpoints in He'. simpl in He'.
  unfold test_endpoint, app_get, get_users, top_countries, team_insights,
    active_users_per_day, active_users_per_day_body. simpl min_valid. cbv iota.
  destruct He' as [<-|[<-|[<-|[<-|[]]]]];
    destruct (cache !! people_key) eqn:Hc; repeat split.
Qed.

(** ** Ingestion: replacement, not accumulation *)

Section IngestionReplaces.
Variable Raw : Type.
Variable validate : Raw -> option Person.

Lemma post_users_valid cache payload :
  (forall r, In r payload -> validate r <> None) ->
  exists people,
    validate_all Raw validate payload = Some people
    /\ post_users Raw validate cache payload
       = (<[people_key := people]> cache, Ok (stored_message (length people))).
Proof.
  intros Hgood. unfold post_users.
  destruct (validate_all Raw validate payload) as [people|] eqn:Hall; [eauto|].
  apply validate_all_none in Hall as (r & Hin & Hnone). destruct (Hgood r Hin Hnone).
Qed.

(** Sending the same request twice gives the same cache and the same
    response as sending it once, whether or not it validates. *)
Theorem post_users_idempotent (cache : gmap string (list Person)) payload :
  post_users Raw validate (post_users Raw validate cache payload).1 payload
  = post_users Raw validate cache payload.
Proof.
  unfold post_users.
  destruct (validate_all Raw validate payload) as [people|] eqn:Hall; cbn [fst].
  - rewrite insert_insert_eq. reflexivity.
  - reflexivity.
Qed.

(** A valid payload replaces the snapshot: the cache after it is the
    same whatever was ingested just before, the snapshot stored is the
    same whatever the cache held, and no other key is touched. *)
Theorem post_users_last_write_wins (cache cache' : gmap string (list Person))
    earlier payload :
  (forall r, In r payload -> validate r <> None) ->
  (post_users Raw validate (post_users Raw validate cache earlier).1 payload).1
  = (post_users Raw validate cache payload).1
  /\ (post_users Raw validate cache payload).1 !! people_key
     = (post_users Raw validate cache' payload).1 !! people_key
  /\ (forall k, k <> people_key ->
        (post_users Raw validate cache payload).1 !! k = cache !! k).
Proof.
  intros Hgood.
  destruct (post_users_valid cache payload Hgood) as (people & Hall & Hc).
  destruct (post_users_valid cache' payload Hgood) as (people' & Hall' & Hc').
  destruct (post_users_valid (post_users Raw validate cache earlier).1 payload Hgood)
    as (people'' & Hall'' & Hc'').
  rewrite Hc, Hc', Hc''. cbn [fst].
  assert (people' = people) by congruence. assert (people'' = people) by congruence.
  subst. split; [|split].
  - unfold post_users. destruct (validate_all Raw validate earlier); cbn [fst].
    + apply insert_insert_eq.
    + reflexivity.
  - rewrite !lookup_insert_eq. reflexivity.
  - intros k Hk. apply lookup_insert_ne. congruence.
Qed.
End IngestionReplaces.

Lemma post_users_last_write_wins_witness :
  (post_users RawExample validate_example
     (post_users RawExample validate_example cache_init [WellFormed caio]).1
     [WellFormed ana; WellFormed bob]).1
  = (post_users RawExample validate_example cache_init
       [WellFormed ana; WellFormed bob]).1.
Proof.
  apply (proj1 (post_users_last_write_wins RawExample validate_example
                  cache_init cache_init [WellFormed caio]
                  [WellFormed ana; WellFormed bob]
                  ltac:(intros r [<-|[<-|[]]]; discriminate))).
Defined.

(** ** GET /top-countries: how many, and when all *)

Lemma Counter_length_distinct {K} `{EqDecision K} (l : list K) :
  length (Counter l) = length (remove_dups l).
Proof.
  transitivity (length (Dict.keys (Counter l))).
  { unfold Dict.keys. rewrite length_map. reflexivity. }
  apply Permutation_length, NoDup_Permutation.
  - apply Counter_keys_NoDup.
  - apply NoDup_remove_dups.
  - intros k. rewrite elem_of_remove_dups, !list_elem_of_In. apply Counter_keys_In.
Qed.

Lemma sorted_desc_counter_In people c :
  0 < over_800_in c people ->
  In (c, over_800_in c people) (sorted_desc (Counter (superusuarios people))).
Proof.
  intros Hpos. eapply Permutation_in; [symmetry; apply sorted_desc_Permutation|].
  apply Counter_In. rewrite occurrences_superusuarios. auto.
Qed.

(** GET /top-countries lists as many countries as there are distinct
    ones among the records with [score > 800], up to five.  When there
    are at most five, every one of them is listed with its count and the
    counts add up to exactly the number of such records. *)
Theorem top_countries_size cache people :
  cache !! people_key = Some people ->
  exists body,
    top_countries cache = Ok body
    /\ length (body_data body)
       = Nat.min 5 (length (remove_dups (superusuarios people)))
    /\ ((length (remove_dups (superusuarios people)) <= 5)%nat ->
        (forall c, 0 < over_800_in c people ->
           In (c, over_800_in c people) (body_data body))
        /\ sum_counts (body_data body)
           = len (List.filter (fun usuario => 800 <? score usuario) people)).
Proof.
  intros Hc. rewrite (top_countries_on _ _ Hc).
  eexists. split; [reflexivity|]. cbn [body_data].
  pose proof (Permutation_length (sorted_desc_Permutation (Counter (superusuarios people))))
    as Hlen.
  rewrite Counter_length_distinct in Hlen.
  split; [rewrite length_take, Hlen; lia|].
  intros Hfew. rewrite take_ge by lia. split.
  - intros c Hpos. apply sorted_desc_counter_In, Hpos.
  - rewrite (sum_counts_Permutation _ _ (sorted_desc_Permutation _)).
    rewrite Counter_sum. apply superusuarios_length.
Qed.

Lemma top_countries_size_witness :
  exists body,
    top_countries sample_cache = Ok body
    /\ length (body_data body)
       = Nat.min 5 (length (remove_dups (superusuarios sample_people)))
    /\ ((length (remove_dups (superusuarios sample_people)) <= 5)%nat ->
        (forall c, 0 < over_800_in c sample_people ->
           In (c, over_800_in c sample_people) (body_data body))
        /\ sum_counts (body_data body)
           = len (List.filter (fun usuario => 800 <? score usuario) sample_people)).
Proof. apply (top_countries_size sample_cache). apply sample_cache_people. Defined.

(** Every record GET /users returns is one that GET /top-countries
    counts: its country has at least one record with [score > 800], and
    it is listed by GET /top-countries whenever fewer than five
    countries are. *)
Theorem superusers_counted_by_top_countries cache people :
  cache !! people_key = Some people ->
  exists users top,
    get_users cache = Ok users /\ top_countries cache = Ok top
    /\ total users
       <= len (List.filter (fun usuario => 800 <? score usuario) people)
    /\ (forall person, In person (body_data users) ->
          1 <= over_800_in (pais person) people
          /\ ((length (body_data top) < 5)%nat ->
              In (pais person, over_800_in (pais person) people) (body_data top))).
Proof.
  intros Hc. unfold get_users. rewrite (top_countries_on _ _ Hc), Hc.
  do 2 eexists. do 2 (split; [reflexivity|]). cbn [body_data total].
  split.
  - apply len_sublist, filter_sublist_mono. intros p Hp.
    apply is_superuser_spec in Hp as [Hs _]. apply Z.ltb_lt. lia.
  - intros person Hin. apply filter_In in Hin as [Hin Hsup].
    apply is_superuser_spec in Hsup as [Hs _].
    assert (Hpos : 0 < over_800_in (pais person) people).
    { rewrite <- occurrences_superusuarios. apply occurrences_pos.
      unfold superusuarios. apply in_map, filter_In. split; [exact Hin|].
      apply Z.ltb_lt. lia. }
    split; [lia|]. intros Hlt.
    rewrite length_take in Hlt. rewrite take_ge by lia.
    apply sorted_desc_counter_In, Hpos.
Qed.

Lemma superusers_counted_by_top_countries_witness :
  exists users top,
    get_users sample_cache = Ok users /\ top_countries sample_cache = Ok top
    /\ total users
       <= len (List.filter (fun usuario => 800 <? score usuario) sample_people)
    /\ (forall person, In person (body_data users) ->
          1 <= over_800_in (pais person) sample_people
          /\ ((length (body_data top) < 5)%nat ->
              In (pais person, over_800_in (pais person) sample_people)
                (body_data top))).
Proof.
  apply (superusers_counted_by_top_countries sample_cache). apply sample_cache_people.
Defined.

(** ** GET /team-insights: the groups partition the snapshot *)

Lemma sumZ_update {K V} `{EqDecision K} (g : V -> Z) (k : K) dflt f delta
    (d : Dict.t K V) :
  g dflt = 0 ->
  (forall v, g (f v) = g v + delta) ->
  sumZ (map (fun item => g item.2) (Dict.update k dflt f d))
  = sumZ (map (fun item => g item.2) d) + delta.
Proof.
  intros H0 Hf. unfold sumZ. induction d as [|[k0 v0] d IH]; simpl.
  - rewrite Hf, H0. lia.
  - destruct (decide (k = k0)); simpl; [rewrite Hf|rewrite IH]; lia.
Qed.

Lemma team_data_sum (g : TeamInfo -> Z) (delta : Person -> Z) people :
  g team_info_default = 0 ->
  (forall u info,
     g {| total_membros := total_membros info + 1;
          lideres := if lider (equipe u) then lideres info + 1 else lideres info;
          projetos_concluidos :=
            projetos_concluidos info + concluidos (projetos (equipe u));
          ativos := if ativo u then ativos info + 1 else ativos info |}
     = g info + delta u) ->
  sumZ (map (fun item => g item.2) (team_data_of people)) = sumZ (map delta people).
Proof.
  intros H0 Hstep. induction people as [|u people IH] using rev_ind; [reflexivity|].
  rewrite team_data_snoc, map_app, sumZ_app. unfold team_step.
  rewrite (sumZ_update g _ _ _ (delta u) _ H0 (Hstep u)), IH. simpl. lia.
Qed.

Lemma sumZ_indicator {A} (f : A -> bool) (l : list A) :
  sumZ (map (fun x => if f x then 1 else 0) l) = len (List.filter f l).
Proof.
  unfold sumZ, len. induction l as [|x l IH]; simpl; [reflexivity|].
  destruct (f x); simpl length; lia.
Qed.

Lemma sumZ_ones {A} (l : list A) : sumZ (map (fun _ => 1) l) = len l.
Proof. unfold sumZ, len. induction l as [|x l IH]; simpl length; simpl; lia. Qed.

(** The groups of GET /team-insights partition the snapshot: over all
    entries, [total_membros] adds up to the number of records, [lideres]
    to the number of records whose team record is flagged leader, and
    [projetos_concluidos] to the completed projects of all team
    records. *)
Theorem team_insights_totals cache people :
  cache !! people_key = Some people ->
  exists body,
    team_insights cache = Ok body
    /\ sumZ (map ins_total_membros (body_data body)) = len people
    /\ sumZ (map ins_lideres (body_data body))
       = len (List.filter (fun usuario => lider (equipe usuario)) people)
    /\ sumZ (map ins_projetos_concluidos (body_data body))
       = sumZ (map (fun usuario =>
                      len (List.filter concluido (projetos (equipe usuario))))
                 people).
Proof.
  intros Hc. unfold team_insights. rewrite Hc.
  eexists. split; [reflexivity|]. cbn [body_data]. rewrite !map_map.
  cbn [insight_of ins_total_membros ins_lideres ins_projetos_concluidos].
  split; [|split].
  - rewrite (team_data_sum total_membros (fun _ => 1)); [apply sumZ_ones|reflexivity|].
    intros u info. reflexivity.
  - rewrite (team_data_sum lideres (fun u => if lider (equipe u) then 1 else 0));
      [apply sumZ_indicator|reflexivity|].
    intros u info. cbn [lideres]. destruct (lider (equipe u)); lia.
  - rewrite (team_data_sum projetos_concluidos
               (fun u => len (List.filter concluido (projetos (equipe u)))));
      [reflexivity|reflexivity|].
    intros u info. cbn [projetos_concluidos]. rewrite concluidos_count. reflexivity.
Qed.

Lemma team_insights_totals_witness :
  exists body,
    team_insights sample_cache = Ok body
    /\ sumZ (map ins_total_membros (body_data body)) = len sample_people
    /\ sumZ (map ins_lideres (body_data body))
       = len (List.filter (fun usuario => lider (equipe usuario)) sample_people)
    /\ sumZ (map ins_projetos_concluidos (body_data body))
       = sumZ (map (fun usuario =>
                      len (List.filter concluido (projetos (equipe usuario))))
                 sample_people).
Proof. apply (team_insights_totals sample_cache). apply sample_cache_people. Defined.

(** In every entry of GET /team-insights the leaders are between zero
    and the number of members, and the completed projects are not
    negative. *)
Theorem team_insights_entry_bounds cache people :
  cache !! people_key = Some people ->
  exists body,
    team_insights cache = Ok body
    /\ (forall i, In i (body_data body) ->
          0 <= ins_lideres i <= ins_total_membros i
          /\ 0 <= ins_projetos_concluidos i).
Proof.
  intros Hc. unfold team_insights. rewrite Hc.
  eexists. split; [reflexivity|]. cbn [body_data].
  intros i Hi. apply in_map_iff in Hi as ([t info] & <- & Hin).
  apply team_data_In in Hin as [-> _].
  cbn [insight_of ins_total_membros ins_lideres ins_projetos_concluidos snd].
  unfold group_info. cbn [total_membros lideres projetos_concluidos].
  split; [apply filter_len_le|].
  generalize (members t people). intros ms. unfold sumZ.
  induction ms as [|u ms IH]; simpl; [lia|].
  pose proof (filter_len_le concluido (projetos (equipe u))). lia.
Qed.

Lemma team_insights_entry_bounds_witness :
  exists body,
    team_insights sample_cache = Ok body
    /\ (forall i, In i (body_data body) ->
          0 <= ins_lideres i <= ins_total_membros i
          /\ 0 <= ins_projetos_concluidos i).
Proof.
  apply (team_insights_entry_bounds sample_cache sample_people).
  apply sample_cache_people.
Defined.

(** ** GET /team-insights: the extreme percentages *)

Module FloatExact.
Import Float FloatFacts.

Lemma round_half_even_ge n d bound :
  0 < d -> bound * d <= n -> bound <= round_half_even n d.
Proof.
  intros Hd Hn. unfold round_half_even.
  assert (Hq : bound <= n / d) by (apply Z.div_le_lower_bound; lia).
  destruct (2 * (n mod d) <? d); [lia|].
  destruct (d <? 2 * (n mod d)); [lia|].
  destruct (Z.even (n / d)); lia.
Qed.

(** Rounding does not cross an integer from above either. *)
Lemma RN_ge n d bound :
  0 <= n -> 0 < d -> n < 2 ^ 53 * d -> bound * d <= n ->
  bound * dn (expo (RN n d)) <= mant (RN n d) * up (expo (RN n d)).
Proof.
  intros Hn Hd Hlt Hle.
  pose proof (RN_expo n d 53 Hn Hd ltac:(lia) Hlt) as He.
  assert (Hup : up (expo (RN n d)) = 1).
  { unfold up. rewrite Z.max_r by lia. reflexivity. }
  rewrite Hup, Z.mul_1_r. revert Hup. unfold RN.
  destruct (Z.eqb_spec n 0) as [->|Hn0]; cbn [mant expo]; intros Hup.
  - pose proof (dn_pos emin). nia.
  - set (e := Z.max emin (ilog2 n d - (prec - 1))) in *.
    rewrite Hup, Z.mul_1_r. pose proof (dn_pos e).
    apply round_half_even_ge; [exact Hd|nia].
Qed.

(** An integer quotient below [2^52] is computed exactly. *)
Lemma RN_exact k d :
  0 <= k < 2 ^ 52 -> 0 < d ->
  mant (RN (k * d) d) * up (expo (RN (k * d) d)) = k * dn (expo (RN (k * d) d)).
Proof.
  intros Hk Hd.
  assert (2 ^ 52 < 2 ^ 53) by (apply Z.pow_lt_mono_r; lia).
  pose proof (RN_le (k * d) d k ltac:(nia) Hd Hk ltac:(lia)).
  pose proof (RN_ge (k * d) d k ltac:(nia) Hd ltac:(nia) ltac:(lia)).
  lia.
Qed.

Lemma value_integer (x : float) k :
  mant x * up (expo x) = k * dn (expo x) -> (value x == inject_Z k)%Q.
Proof.
  intros H. unfold value, Qeq, inject_Z. cbn [Qnum Qden].
  rewrite Z2Pos.id by apply dn_pos. lia.
Qed.

(** [round(t / t * 100, 2)] is 100.0. *)
Lemma percentage_all t :
  0 < t -> (value (round2 (mul_int (int_truediv t t) 100)) == 100)%Q.
Proof.
  intros Ht. unfold int_truediv.
  pose proof (RN_exact 1 t ltac:(split; [lia|reflexivity]) Ht) as H1.
  rewrite Z.mul_1_l in H1. set (x1 := RN t t) in *.
  unfold mul_int. rewrite H1.
  pose proof (RN_exact 100 (dn (expo x1)) ltac:(split; [lia|reflexivity])
                (dn_pos _)) as H2.
  replace (1 * dn (expo x1) * 100) with (100 * dn (expo x1)) by lia.
  set (x2 := RN (100 * dn (expo x1)) (dn (expo x1))) in *.
  unfold round2. rewrite H2.
  assert (Hh : round_half_even (100 * dn (expo x2) * 100) (dn (expo x2)) = 100 * 100).
  { pose proof (dn_pos (expo x2)).
    pose proof (round_half_even_le (100 * dn (expo x2) * 100) (dn (expo x2))
                  (100 * 100) ltac:(lia) ltac:(lia)).
    pose proof (round_half_even_ge (100 * dn (expo x2) * 100) (dn (expo x2))
                  (100 * 100) ltac:(lia) ltac:(lia)).
    lia. }
  rewrite Hh. vm_compute. reflexivity.
Qed.

(** [round(0 / t * 100, 2)] is 0.0. *)
Lemma percentage_none t :
  round2 (mul_int (int_truediv 0 t) 100) = {| mant := 0; expo := emin |}.
Proof. vm_compute. reflexivity. Qed.
End FloatExact.

(** A team all of whose members are active gets exactly 100.0, and a
    team none of whose members is active gets exactly 0.0. *)
Theorem team_insights_percentage_extremes cache people :
  cache !! people_key = Some people ->
  exists body,
    team_insights cache = Ok body
    /\ (forall i, In i (body_data body) ->
          let ms := members (team_name i) people in
          (Forall (fun usuario => ativo usuario = true) ms ->
           (number_value (percentagem_ativos i) == 100)%Q)
          /\ (Forall (fun usuario => ativo usuario = false) ms ->
              percentagem_ativos i
              = PyFloat {| Float.mant := 0; Float.expo := Float.emin |}
              /\ (number_value (percentagem_ativos i) == 0)%Q)).
Proof.
  intros Hc. unfold team_insights. rewrite Hc.
  eexists. split; [reflexivity|]. cbn [body_data].
  intros i Hi. apply in_map_iff in Hi as ([t info] & <- & Hin).
  apply team_data_In in Hin as [-> Hne].
  cbn [insight_of team_name percentagem_ativos fst snd]. cbv zeta.
  destruct (porcentagem_group t people Hne) as (Hpct & _ & _). cbv zeta in Hpct.
  rewrite Hpct. cbn [number_value].
  assert (Hpos : 0 < len (members t people)).
  { unfold len. destruct (members t people); [congruence|]. simpl length. lia. }
  split.
  - intros Hall.
    assert (Hf : List.filter ativo (members t people) = members t people).
    { clear -Hall. induction Hall as [|u l Hu _ IH]; simpl; [reflexivity|].
      rewrite Hu, IH. reflexivity. }
    rewrite Hf. apply FloatExact.percentage_all, Hpos.
  - intros Hnone.
    assert (Hf : List.filter ativo (members t people) = []).
    { clear -Hnone. induction Hnone as [|u l Hu _ IH]; simpl; [reflexivity|].
      rewrite Hu, IH. reflexivity. }
    rewrite Hf. change (len []) with 0. rewrite FloatExact.percentage_none.
    split; reflexivity.
Qed.

Lemma team_insights_percentage_extremes_witness :
  exists body,
    team_insights sample_cache = Ok body
    /\ (forall i, In i (body_data body) ->
          let ms := members (team_name i) sample_people in
          (Forall (fun usuario => ativo usuario = true) ms ->
           (number_value (percentagem_ativos i) == 100)%Q)
          /\ (Forall (fun usuario => ativo usuario = false) ms ->
              percentagem_ativos i
              = PyFloat {| Float.mant := 0; Float.expo := Float.emin |}
              /\ (number_value (percentagem_ativos i) == 0)%Q)).
Proof.
  apply (team_insights_percentage_extremes sample_cache sample_people).
  apply sample_cache_people.
Defined.

(** ** GET /active-users-per-day: totals and the ends of [min] *)

Lemma filter_all {A} (f : A -> bool) (l : list A) :
  (forall x, In x l -> f x = true) -> List.filter f l = l.
Proof.
  induction l as [|x l IH]; simpl; intros H; [reflexivity|].
  rewrite (H x (or_introl eq_refl)), IH; auto.
Qed.

Lemma filter_none {A} (f : A -> bool) (l : list A) :
  (forall x, In x l -> f x = false) -> List.filter f l = [].
Proof.
  induction l as [|x l IH]; simpl; intros H; [reflexivity|].
  rewrite (H x (or_introl eq_refl)), IH; auto.
Qed.

Lemma login_dates_length people :
  len (login_dates people)
  = sumZ (map (fun usuario => len (List.filter is_login (logs usuario))) people).
Proof.
  unfold login_dates. induction people as [|u people IH]; [reflexivity|].
  cbn [map concat]. rewrite len_app. unfold sumZ in *. cbn [fold_right].
  rewrite <- IH. unfold len. rewrite length_map. reflexivity.
Qed.

Lemma sum_counts_filter_le {K} (f : K * Z -> bool) (l : list (K * Z)) :
  (forall x, In x l -> 0 <= x.2) ->
  sum_counts (List.filter f l) <= sum_counts l.
Proof.
  unfold sum_counts. induction l as [|x l IH]; intros Hnn; simpl; [lia|].
  assert (0 <= x.2) by (apply Hnn; simpl; auto).
  assert (IH' := IH (fun y Hy => Hnn y (or_intror Hy))).
  destruct (f x); simpl; lia.
Qed.

(** Without [min], the logins of all listed days add up to the number
    of ["login"] entries in the logs of all records: entries are counted,
    not distinct users.  With [min], they add up to at most that. *)
Theorem active_users_per_day_sum cache people min :
  cache !! people_key = Some people ->
  min_valid min = true ->
  exists body,
    active_users_per_day cache min = Ok body
    /\ sum_counts (body_data body)
       <= sumZ (map (fun usuario => len (List.filter is_login (logs usuario))) people)
    /\ (min = None ->
        sum_counts (body_data body)
        = sumZ (map (fun usuario => len (List.filter is_login (logs usuario))) people)).
Proof.
  intros Hc Hv. rewrite (active_users_per_day_on _ _ _ Hc Hv).
  eexists. split; [reflexivity|]. cbn [body_data].
  rewrite <- login_dates_length, <- (Counter_sum (login_dates people)).
  split.
  - destruct min as [m|]; [|lia]. apply sum_counts_filter_le.
    intros [d c] Hin. apply Counter_In in Hin. simpl. lia.
  - intros ->. reflexivity.
Qed.

Lemma active_users_per_day_sum_witness :
  exists body,
    active_users_per_day sample_cache None = Ok body
    /\ sum_counts (body_data body)
       <= sumZ (map (fun usuario => len (List.filter is_login (logs usuario)))
                 sample_people)
    /\ (@None Z = None ->
        sum_counts (body_data body)
        = sumZ (map (fun usuario => len (List.filter is_login (logs usuario)))
                  sample_people)).
Proof.
  apply (active_users_per_day_sum sample_cache sample_people None).
  - apply sample_cache_people.
  - reflexivity.
Defined.

(** [min=0] and [min=1] give the same answer as no [min] at all, with
    or without a snapshot: every listed day has at least one login. *)
Theorem min_zero_or_one_is_no_min cache (m : Z) :
  0 <= m <= 1 ->
  active_users_per_day cache (Some m) = active_users_per_day cache None.
Proof.
  intros Hm. unfold active_users_per_day. simpl min_valid.
  destruct (Z.leb_spec 0 m); [|lia].
  unfold active_users_per_day_body.
  destruct (cache !! people_key) as [people|]; [|reflexivity].
  rewrite filter_all; [reflexivity|].
  intros [d c] Hin. rewrite login_count_by_day_Counter in Hin.
  apply Counter_In in Hin. simpl. apply Z.leb_le. lia.
Qed.

Lemma min_zero_or_one_is_no_min_witness :
  active_users_per_day sample_cache (Some 1) = active_users_per_day sample_cache None.
Proof. apply (min_zero_or_one_is_no_min sample_cache 1). lia. Defined.

(** A [min] above the count of every day is answered with success and
    an empty list, not with an error. *)
Theorem min_above_every_count cache people (m : Z) :
  cache !! people_key = Some people ->
  (forall d, occurrences d (login_dates people) < m) ->
  active_users_per_day cache (Some m) = Ok {| total := 0; body_data := [] |}.
Proof.
  intros Hc Hm.
  assert (Hpos : 0 < m).
  { pose proof (Hm d1). pose proof (occurrences_nonneg d1 (login_dates people)). lia. }
  rewrite (active_users_per_day_on _ _ (Some m) Hc) by (apply Z.leb_le; lia).
  cbv zeta. rewrite filter_none; [reflexivity|].
  intros [d c] Hin. apply Counter_In in Hin as [-> _]. simpl.
  apply Z.leb_gt. apply Hm.
Qed.

Lemma min_above_every_count_witness :
  active_users_per_day sample_cache (Some 4) = Ok {| total := 0; body_data := [] |}.
Proof.
  apply (min_above_every_count sample_cache sample_people 4).
  - apply sample_cache_people.
  - intros d. change (login_dates sample_people) with [d1; d2; d2; d2].
    simpl. repeat destruct (decide _); try lia; subst; discriminate.
Defined.

(** ** POST /users: the message *)

(** The message of POST /users states the count unambiguously: the
    decimal number before its first space reads back as the number of
    records stored, so different counts give different messages. *)
Theorem stored_message_reads_back n :
  read_count (stored_message n) = Some n
  /\ (forall m, stored_message n = stored_message m -> n = m).
Proof.
  split; [apply read_count_stored_message|].
  intros m Heq. pose proof (read_count_stored_message n) as Hn.
  rewrite Heq, read_count_stored_message in Hn. congruence.
Qed.

(** ** How many groups and days *)

Lemma remove_dups_length_le {A} `{EqDecision A} (l : list A) :
  (length (remove_dups l) <= length l)%nat.
Proof.
  induction l as [|x l IH]; simpl; [lia|].
  destruct (decide_rel elem_of x l); simpl; lia.
Qed.

Lemma Counter_keys_distinct {K} `{EqDecision K} (l : list K) :
  Permutation (Dict.keys (Counter l)) (remove_dups l).
Proof.
  apply NoDup_Permutation.
  - apply Counter_keys_NoDup.
  - apply NoDup_remove_dups.
  - intros k. rewrite elem_of_remove_dups, !list_elem_of_In. apply Counter_keys_In.
Qed.

(** GET /team-insights has exactly one entry per distinct team name of
    the snapshot: the team names of its entries are the distinct team
    names of the records, each once, and [total] is their number, hence
    at most the number of records. *)
Theorem team_insights_size cache people :
  cache !! people_key = Some people ->
  exists body,
    team_insights cache = Ok body
    /\ Permutation (map team_name (body_data body))
         (remove_dups (map team_of people))
    /\ NoDup (map team_name (body_data body))
    /\ total body = len (body_data body)
    /\ total body = len (remove_dups (map team_of people))
    /\ total body <= len people.
Proof.
  intros Hc. unfold team_insights. rewrite Hc.
  eexists. split; [reflexivity|]. cbn [body_data total].
  assert (Hnames : map team_name (map insight_of (team_data_of people))
                   = Dict.keys (Counter (map team_of people))).
  { rewrite <- team_data_keys. unfold Dict.keys. rewrite map_map. reflexivity. }
  pose proof (Counter_keys_distinct (map team_of people)) as Hperm.
  assert (Hlen : length (map insight_of (team_data_of people))
                 = length (remove_dups (map team_of people))).
  { rewrite <- (Permutation_length Hperm), <- Hnames, !length_map. reflexivity. }
  split; [rewrite Hnames; exact Hperm|].
  split; [rewrite Hnames; apply Counter_keys_NoDup|].
  split; [reflexivity|].
  unfold len. rewrite Hlen. split; [reflexivity|].
  pose proof (remove_dups_length_le (map team_of people)) as Hle.
  rewrite length_map in Hle. lia.
Qed.

Lemma team_insights_size_witness :
  exists body,
    team_insights sample_cache = Ok body
    /\ Permutation (map team_name (body_data body))
         (remove_dups (map team_of sample_people))
    /\ NoDup (map team_name (body_data body))
    /\ total body = len (body_data body)
    /\ total body = len (remove_dups (map team_of sample_people))
    /\ total body <= len sample_people.
Proof. apply (team_insights_size sample_cache). apply sample_cache_people. Defined.

(** Without [min], GET /active-users-per-day has exactly one entry per
    distinct date among the ["login"] entries: the dates of its entries
    are those distinct dates, each once, and [total] is their number. *)
Theorem active_users_per_day_size cache people :
  cache !! people_key = Some people ->
  exists body,
    active_users_per_day cache None = Ok body
    /\ Permutation (Dict.keys (body_data body)) (remove_dups (login_dates people))
    /\ NoDup (Dict.keys (body_data body))
    /\ total body = len (body_data body)
    /\ total body = len (remove_dups (login_dates people)).
Proof.
  intros Hc. rewrite (active_users_per_day_on _ _ None Hc) by reflexivity.
  eexists. split; [reflexivity|]. cbn [body_data total].
  split; [apply Counter_keys_distinct|].
  split; [apply Counter_keys_NoDup|].
  split; [reflexivity|].
  unfold len. rewrite Counter_length_distinct. reflexivity.
Qed.

Lemma active_users_per_day_size_witness :
  exists body,
    active_users_per_day sample_cache None = Ok body
    /\ Permutation (Dict.keys (body_data body))
         (remove_dups (login_dates sample_people))
    /\ NoDup (Dict.keys (body_data body))
    /\ total body = len (body_data body)
    /\ total body = len (remove_dups (login_dates sample_people)).
Proof. apply (active_users_per_day_size sample_cache). apply sample_cache_people. Defined.
